(** * active_grasp: the grasp policies of [policies.py]

    A shallow embedding of [get_policy], [Policy], [SingleViewBaseline] and
    [FixedTrajectoryBaseline].

    Conventions of the embedding:
    - Python floats are idealised as real numbers ([R]); [np.pi], [np.cos]
      and [np.sin] are [PI], [cos] and [sin].  The idealisation is off only
      by rounding as long as no branch depends on the sign of a rounded
      number; the one step where a branch does, the turn of
      [plan_best_grasp], is modelled a second time in binary64 ([Doubles]).
    - An object is a record of its attributes.  An attribute that is only
      assigned after construction ([last_depth_img], [done], [tic], ...) is
      an [option]: [None] until its first assignment, and reading it while
      it is [None] raises [AttributeError].
    - A method is a computation in a state-and-exception monad over the
      object; what a method has assigned before it raises stays assigned.
    - The collaborators ([robot_utils.spatial], the TSDF volume, the VGN
      network and [compute_grasps], the transform tree, the clock) are not
      part of the repository.  Rotations and transforms are modelled by
      rotation matrices and rigid motions; the perception pipeline is a
      parameter; clock readings and transform lookups are arguments of the
      method that asks for them.  The drawing calls of [vgn.vis] leave the
      policy object alone and are left out. *)

From Stdlib Require Import PrimFloat.
From Stdlib Require Import Reals Lra List String.
Import ListNotations.

Open Scope R_scope.

(** ** Python exceptions and results *)

Inductive exn : Type :=
| AttributeError (attr : string)   (* reading an attribute never assigned *)
| IndexError                       (* sequence index out of range *)
| ValueError (msg : string)
| LibraryError (cls : string).     (* raised inside a collaborator *)

(** The name of the exception's Python class. *)
Definition exn_class (e : exn) : string :=
  match e with
  | AttributeError _ => "AttributeError"
  | IndexError => "IndexError"
  | ValueError _ => "ValueError"
  | LibraryError cls => cls
  end.

Inductive result (A : Type) : Type :=
| Ok (a : A)
| Raise (e : exn).

Arguments Ok {A} a.
Arguments Raise {A} e.

(** Overloaded [*] of the Python classes ([__mul__]). *)
Class Mul (A : Type) := mul : A -> A -> A.
Infix "**" := mul (at level 40, left associativity).

(** ** [robot_utils.spatial]: rotations and rigid transforms *)

Module Spatial.

Record Vec3 := mkVec3 { vx : R; vy : R; vz : R }.

Definition vadd (a b : Vec3) : Vec3 :=
  mkVec3 (vx a + vx b) (vy a + vy b) (vz a + vz b).

Definition vopp (a : Vec3) : Vec3 := mkVec3 (- vx a) (- vy a) (- vz a).

Definition vzero : Vec3 := mkVec3 0 0 0.

(** Row-major 3x3 matrices. *)
Record Mat3 := mkMat3 {
  m00 : R; m01 : R; m02 : R;
  m10 : R; m11 : R; m12 : R;
  m20 : R; m21 : R; m22 : R }.

Definition mid : Mat3 := mkMat3 1 0 0  0 1 0  0 0 1.

Definition mmul (a b : Mat3) : Mat3 :=
  mkMat3
    (m00 a * m00 b + m01 a * m10 b + m02 a * m20 b)
    (m00 a * m01 b + m01 a * m11 b + m02 a * m21 b)
    (m00 a * m02 b + m01 a * m12 b + m02 a * m22 b)
    (m10 a * m00 b + m11 a * m10 b + m12 a * m20 b)
    (m10 a * m01 b + m11 a * m11 b + m12 a * m21 b)
    (m10 a * m02 b + m11 a * m12 b + m12 a * m22 b)
    (m20 a * m00 b + m21 a * m10 b + m22 a * m20 b)
    (m20 a * m01 b + m21 a * m11 b + m22 a * m21 b)
    (m20 a * m02 b + m21 a * m12 b + m22 a * m22 b).

Definition mapply (a : Mat3) (v : Vec3) : Vec3 :=
  mkVec3
    (m00 a * vx v + m01 a * vy v + m02 a * vz v)
    (m10 a * vx v + m11 a * vy v + m12 a * vz v)
    (m20 a * vx v + m21 a * vy v + m22 a * vz v).

Definition mtranspose (a : Mat3) : Mat3 :=
  mkMat3 (m00 a) (m10 a) (m20 a)
         (m01 a) (m11 a) (m21 a)
         (m02 a) (m12 a) (m22 a).

(** [m[:, 0]], the first column. *)
Definition col0 (a : Mat3) : Vec3 := mkVec3 (m00 a) (m10 a) (m20 a).

(** A [Rotation] is observed through [as_matrix]. *)
Record Rotation := mkRotation { as_matrix : Mat3 }.

#[export] Instance Rotation_mul : Mul Rotation :=
  fun p q => mkRotation (mmul (as_matrix p) (as_matrix q)).

Definition Rotation_identity : Rotation := mkRotation mid.

(** The inverse of a rotation is its transpose. *)
Definition Rotation_inv (p : Rotation) : Rotation :=
  mkRotation (mtranspose (as_matrix p)).

Definition Rotation_apply (p : Rotation) (v : Vec3) : Vec3 :=
  mapply (as_matrix p) v.

Inductive EulerAxis := axis_x | axis_y | axis_z.

(** [Rotation.from_euler(axis, angle)] for a single axis, in radians. *)
Definition from_euler (axis : EulerAxis) (angle : R) : Rotation :=
  let c := cos angle in
  let s := sin angle in
  mkRotation
    match axis with
    | axis_x => mkMat3 1 0 0  0 c (- s)  0 s c
    | axis_y => mkMat3 c 0 s  0 1 0  (- s) 0 c
    | axis_z => mkMat3 c (- s) 0  s c 0  0 0 1
    end.

Record Transform := mkTransform {
  rotation : Rotation;
  translation : Vec3 }.

(** [Transform.__mul__]: [self] after [other]. *)
#[export] Instance Transform_mul : Mul Transform :=
  fun a b =>
    mkTransform (rotation a ** rotation b)
                (vadd (Rotation_apply (rotation a) (translation b))
                      (translation a)).

Definition Transform_identity : Transform :=
  mkTransform Rotation_identity vzero.

(** [Transform.inv]. *)
Definition inv (a : Transform) : Transform :=
  let r := Rotation_inv (rotation a) in
  mkTransform r (vopp (Rotation_apply r (translation a))).

(** [pose.rotation = r]: assignment to the attribute of a pose object. *)
Definition set_rotation (a : Transform) (r : Rotation) : Transform :=
  mkTransform r (translation a).

(** [pose.translation = t]. *)
Definition set_translation (a : Transform) (t : Vec3) : Transform :=
  mkTransform (rotation a) t.

End Spatial.

Import Spatial.

(** ** [vgn]: grasp candidates *)

(** A candidate as the extractor hands it out: a pose in the task frame, a
    quality score and a gripper width. *)
Record Grasp := mkGrasp {
  pose : Transform;
  quality : R;
  width : R }.

(** [grasp.pose.rotation = r]: the pose object of the candidate is updated in
    place; score and width are other attributes and stay. *)
Definition set_pose_rotation (g : Grasp) (r : Rotation) : Grasp :=
  mkGrasp (set_rotation (pose g) r) (quality g) (width g).

(** ** [Policy.plan_best_grasp], lines 82-92, on the extracted candidates *)

(** Lines 84-87, "ensure that the camera is pointing forward": the
    candidate's pose is turned about z when the x component of its first
    axis is negative. *)
Definition point_forward (grasp : Grasp) : Grasp :=
  let rot := rotation (pose grasp) in
  let axis := col0 (as_matrix rot) in
  if Rlt_dec (vx axis) 0
  then set_pose_rotation grasp (rot ** from_euler axis_z PI)
  else grasp.

(** [grasps] is the list object returned by [compute_grasps]; the function
    returns the outcome together with the list as the call leaves it. *)
Definition plan_best_grasp_on (H_B_T H_EE_G : Transform) (grasps : list Grasp)
  : result Transform * list Grasp :=
  match grasps with
  | [] => (Raise IndexError, grasps)               (* grasps[0] *)
  | grasp :: others =>
      let grasp := point_forward grasp in
      let H_T_G := pose grasp in
      let H_B_EE := H_B_T ** H_T_G ** inv H_EE_G in
      (Ok H_B_EE, grasp :: others)
  end.

(** ** Lines 84-87 in binary64

    [robot_utils]' [Rotation] is scipy's: it stores a unit quaternion
    (x, y, z, w) of doubles, [__mul__] is the quaternion product followed by
    a normalisation, and [as_matrix] computes the entries from the
    quaternion.  The operations below are those of scipy's [_compose_quat],
    [_normalize4] and [as_matrix], with the operands in scipy's order. *)

Module Doubles.

Import PrimFloat.
Local Open Scope float_scope.

Record Quat := mkQuat { qx : float; qy : float; qz : float; qw : float }.

(** The Hamilton product [p q]. *)
Definition compose_quat (p q : Quat) : Quat :=
  let c0 := qy p * qz q - qz p * qy q in
  let c1 := qz p * qx q - qx p * qz q in
  let c2 := qx p * qy q - qy p * qx q in
  mkQuat (qw p * qx q + qw q * qx p + c0)
         (qw p * qy q + qw q * qy p + c1)
         (qw p * qz q + qw q * qz p + c2)
         (qw p * qw q - qx p * qx q - qy p * qy q - qz p * qz q).

Definition normalize (q : Quat) : Quat :=
  let norm := sqrt (qx q * qx q + qy q * qy q + qz q * qz q + qw q * qw q) in
  mkQuat (qx q / norm) (qy q / norm) (qz q / norm) (qw q / norm).

(** [p * q] of two rotations. *)
Definition Rotation_mul (p q : Quat) : Quat := normalize (compose_quat p q).

(** [as_matrix()[0, 0]], the x component of the first axis. *)
Definition as_matrix_00 (q : Quat) : float :=
  qx q * qx q - qy q * qy q - qz q * qz q + qw q * qw q.

(** [as_matrix()[0, 1]], the x component of the second axis. *)
Definition as_matrix_01 (q : Quat) : float :=
  2 * (qx q * qy q - qz q * qw q).

(** [Rotation.from_euler("z", np.pi)] is (0, 0, sin(pi/2), cos(pi/2)) for
    the double [np.pi]: the sine is 1 and the cosine is
    6.123233995736766e-17, not 0. *)
Definition half_turn_z : Quat := mkQuat 0 0 1 0x1.1a62633145c07p-54.

(** Lines 84-87 on the rotation of the candidate. *)
Definition point_forward (rot : Quat) : Quat :=
  if ltb (as_matrix_00 rot) 0 then Rotation_mul rot half_turn_z else rot.

(** A normalised rotation whose first axis has the x component -2^-55. *)
Definition barely_back : Quat :=
  mkQuat (-0x1.1d6bb8be00758p-1) 0x1.20ecff3833487p-2
         (-0x1.4bf7b36668872p-1) (-0x1.bd73d48b06e38p-2).

End Doubles.

(** ** The state-and-exception monad of a method call *)

Definition M (S A : Type) : Type := S -> result A * S.

Definition bind {S A B} (m : M S A) (k : A -> M S B) : M S B :=
  fun s =>
    match m s with
    | (Ok a, s') => k a s'
    | (Raise e, s') => (Raise e, s')
    end.

Declare Scope method_scope.
Delimit Scope method_scope with method.

Notation "x <- m ;; k" := (bind m (fun x => k))
  (at level 61, m at next level, right associativity) : method_scope.
Notation "m ;;; k" := (bind m (fun _ => k))
  (at level 61, right associativity) : method_scope.

(** [self.field], for an attribute assigned at construction. *)
Definition gets {S A} (field : S -> A) : M S A := fun s => (Ok (field s), s).

(** [self.name], for an attribute assigned after construction. *)
Definition getattr {S A} (name : string) (field : S -> option A) : M S A :=
  fun s =>
    match field s with
    | Some a => (Ok a, s)
    | None => (Raise (AttributeError name), s)
    end.

(** [self.name = v], given the record update for the attribute. *)
Definition setattr {S} (update : S -> S) : M S unit :=
  fun s => (Ok tt, update s).

(** The outcome of a collaborator's call, surfaced in the caller. *)
Definition call {S A} (outcome : result A) : M S A := fun s => (outcome, s).

(** ** [scipy.interpolate.interp1d] on two nodes *)

Record Interp1d := mkInterp1d {
  x_lo : R; x_hi : R;
  y_lo : R; y_hi : R }.

(** Linear interpolation; a query outside [[x_lo, x_hi]] raises
    ([bounds_error] is on by default). *)
Definition interp1d_call (f : Interp1d) (x_new : R) : result R :=
  if Rlt_dec x_new (x_lo f) then Raise (LibraryError "ValueError")
  else if Rgt_dec x_new (x_hi f) then Raise (LibraryError "ValueError")
  else
    let slope := (y_hi f - y_lo f) / (x_hi f - x_lo f) in
    Ok (slope * (x_new - x_lo f) + y_lo f).

(** ** The episode state read off the [done] attribute

    The object only has [done], which [start] creates: the attribute is
    missing before the first [start], false while running and true once a
    grasp has been planned. *)

Inductive EpisodeState := NotStarted | Running | Done.

Definition state_of_done (d : option bool) : EpisodeState :=
  match d with
  | None => NotStarted
  | Some false => Running
  | Some true => Done
  end.

Definition state_rank (e : EpisodeState) : nat :=
  match e with
  | NotStarted => 0
  | Running => 1
  | Done => 2
  end.

Definition state_le (a b : EpisodeState) : Prop :=
  (state_rank a <= state_rank b)%nat.

Section Policies.

(** Depth images and camera intrinsics are opaque to the policies. *)
Context {Image Intrinsic : Type}.

(** [UniformTSDFVolume]: the samples integrated so far, newest first. *)
Definition TSDF : Type := list (Image * Intrinsic * Transform).

(** The perception pipeline of [plan_best_grasp], lines 75-77:
    [get_tsdf_grid], [vgn.predict] and [compute_grasps], from the volume to
    the ordered candidate list. *)
Variable compute_grasps : TSDF -> list Grasp.

(** *** [Policy] *)

Record Policy := mkPolicy {
  H_B_T : Transform;
  H_EE_G : Transform;
  intrinsic : Intrinsic;
  tsdf : TSDF;
  last_depth_img : option Image;
  last_extrinsic : option Transform;
  best_grasp : option Transform;
  done : option bool;
  (** Messages sent on [/target], newest first. *)
  target_pose_pub : list Transform }.

Definition set_tsdf (v : TSDF) (p : Policy) : Policy :=
  mkPolicy (H_B_T p) (H_EE_G p) (intrinsic p) v (last_depth_img p)
           (last_extrinsic p) (best_grasp p) (done p) (target_pose_pub p).

Definition set_last_depth_img (v : Image) (p : Policy) : Policy :=
  mkPolicy (H_B_T p) (H_EE_G p) (intrinsic p) (tsdf p) (Some v)
           (last_extrinsic p) (best_grasp p) (done p) (target_pose_pub p).

Definition set_last_extrinsic (v : Transform) (p : Policy) : Policy :=
  mkPolicy (H_B_T p) (H_EE_G p) (intrinsic p) (tsdf p) (last_depth_img p)
           (Some v) (best_grasp p) (done p) (target_pose_pub p).

Definition set_best_grasp (v : Transform) (p : Policy) : Policy :=
  mkPolicy (H_B_T p) (H_EE_G p) (intrinsic p) (tsdf p) (last_depth_img p)
           (last_extrinsic p) (Some v) (done p) (target_pose_pub p).

Definition set_done (v : bool) (p : Policy) : Policy :=
  mkPolicy (H_B_T p) (H_EE_G p) (intrinsic p) (tsdf p) (last_depth_img p)
           (last_extrinsic p) (best_grasp p) (Some v) (target_pose_pub p).

Definition publish (msg : Transform) (p : Policy) : Policy :=
  mkPolicy (H_B_T p) (H_EE_G p) (intrinsic p) (tsdf p) (last_depth_img p)
           (last_extrinsic p) (best_grasp p) (done p)
           (msg :: target_pose_pub p).

(** What construction reads from its environment: the configured grasp
    offset, the camera-info message and the base-to-task lookup. *)
Record Startup := mkStartup {
  param_ee_grasp_offset : Transform;
  camera_info : Intrinsic;
  lookup_base_task : result Transform }.

(** [Policy.__init__]. *)
Definition Policy_init (env : Startup) : result Policy :=
  match lookup_base_task env with
  | Ok H =>
      Ok (mkPolicy H (param_ee_grasp_offset env) (camera_info env) []
                   None None None None [])
  | Raise e => Raise e
  end.

(** [Policy.sensor_cb]: the image is stored before the extrinsic is looked
    up. *)
Definition sensor_cb (img : Image) (lookup : result Transform)
  : M Policy unit :=
  (setattr (set_last_depth_img img) ;;;
   extrinsic <- call lookup ;;
   setattr (set_last_extrinsic extrinsic))%method.

(** [Policy.plan_best_grasp]. *)
Definition plan_best_grasp : M Policy Transform :=
  fun self =>
    let grasps := compute_grasps (tsdf self) in
    (fst (plan_best_grasp_on (H_B_T self) (H_EE_G self) grasps), self).

(** [self.tsdf.integrate(self.last_depth_img, self.intrinsic,
    self.last_extrinsic)]: the arguments are read left to right. *)
Definition integrate_image : M Policy unit :=
  (img <- getattr "last_depth_img" last_depth_img ;;
   K <- gets intrinsic ;;
   extrinsic <- getattr "last_extrinsic" last_extrinsic ;;
   vol <- gets tsdf ;;
   setattr (set_tsdf ((img, K, extrinsic) :: vol)))%method.

(** *** [SingleViewBaseline] *)

Definition SingleViewBaseline_start : M Policy unit :=
  setattr (set_done false).

Definition SingleViewBaseline_update : M Policy unit :=
  (integrate_image ;;;
   grasp <- plan_best_grasp ;;
   setattr (set_best_grasp grasp) ;;;
   setattr (set_done true))%method.

(** *** [FixedTrajectoryBaseline] *)

Record FixedTrajectoryBaseline := mkFixedTrajectoryBaseline {
  base : Policy;
  duration : R;
  radius : R;
  m : Interp1d;
  tic : option R;
  origin : option Vec3;
  target : option Transform }.

Definition set_base (v : Policy) (s : FixedTrajectoryBaseline) :=
  mkFixedTrajectoryBaseline v (duration s) (radius s) (m s) (tic s)
                            (origin s) (target s).

Definition set_tic (v : R) (s : FixedTrajectoryBaseline) :=
  mkFixedTrajectoryBaseline (base s) (duration s) (radius s) (m s) (Some v)
                            (origin s) (target s).

Definition set_origin (v : Vec3) (s : FixedTrajectoryBaseline) :=
  mkFixedTrajectoryBaseline (base s) (duration s) (radius s) (m s) (tic s)
                            (Some v) (target s).

Definition set_target (v : Transform) (s : FixedTrajectoryBaseline) :=
  mkFixedTrajectoryBaseline (base s) (duration s) (radius s) (m s) (tic s)
                            (origin s) (Some v).

(** A method of [Policy] run on the subclass instance. *)
Definition inherited {A} (f : M Policy A) : M FixedTrajectoryBaseline A :=
  fun s => let (r, p) := f (base s) in (r, set_base p s).

(** [FixedTrajectoryBaseline.__init__], after [super().__init__()]. *)
Definition FixedTrajectoryBaseline_init (p : Policy)
  : FixedTrajectoryBaseline :=
  let duration := 4.0 in
  let radius := 0.1 in
  mkFixedTrajectoryBaseline p duration radius
    (mkInterp1d 0 duration PI (3.0 * PI)) None None None.

(** [start]: [now] is the clock reading, [lookup] the outcome of looking up
    the end-effector pose in the base frame. *)
Definition FixedTrajectoryBaseline_start (now : R)
    (lookup : result Transform) : M FixedTrajectoryBaseline unit :=
  (setattr (set_tic now) ;;;
   x0 <- call lookup ;;
   r <- gets radius ;;
   setattr (set_origin (mkVec3 (vx (translation x0) + r)
                               (vy (translation x0))
                               (vz (translation x0)))) ;;;
   setattr (set_target x0) ;;;
   inherited (setattr (set_done false)))%method.

Definition FixedTrajectoryBaseline_update (now : R)
  : M FixedTrajectoryBaseline unit :=
  (tic <- getattr "tic" tic ;;
   let elapsed_time := now - tic in
   inherited integrate_image ;;;
   D <- gets duration ;;
   if Rgt_dec elapsed_time D then
     grasp <- inherited plan_best_grasp ;;
     inherited (setattr (set_best_grasp grasp)) ;;;
     inherited (setattr (set_done true))
   else
     f <- gets m ;;
     t <- call (interp1d_call f elapsed_time) ;;
     c <- getattr "origin" origin ;;
     r <- gets radius ;;
     x <- getattr "target" target ;;
     let x := set_translation x
                (vadd c (mkVec3 (r * cos t) (r * sin t) 0)) in
     setattr (set_target x) ;;;
     inherited (setattr (publish x)))%method.

(** *** [get_policy] *)

Inductive PolicyObject :=
| SingleView (p : Policy)
| FixedTrajectory (s : FixedTrajectoryBaseline).

(** [SingleViewBaseline()]. *)
Definition SingleViewBaseline_new (env : Startup) : result PolicyObject :=
  match Policy_init env with
  | Ok p => Ok (SingleView p)
  | Raise e => Raise e
  end.

(** [FixedTrajectoryBaseline()]. *)
Definition FixedTrajectoryBaseline_new (env : Startup)
  : result PolicyObject :=
  match Policy_init env with
  | Ok p => Ok (FixedTrajectory (FixedTrajectoryBaseline_init p))
  | Raise e => Raise e
  end.

Definition get_policy (env : Startup) (name : string)
  : result PolicyObject :=
  if String.eqb name "single-view" then SingleViewBaseline_new env
  else if String.eqb name "fixed-trajectory"
       then FixedTrajectoryBaseline_new env
       else Raise (ValueError (name ++ " policy does not exist.")).

(** *** Episodes: sequences of calls on one object *)

Inductive SingleViewCall :=
| SV_start
| SV_update
| SV_sensor_cb (img : Image) (lookup : result Transform).

Definition SV_exec (c : SingleViewCall) (p : Policy) : Policy :=
  match c with
  | SV_start => snd (SingleViewBaseline_start p)
  | SV_update => snd (SingleViewBaseline_update p)
  | SV_sensor_cb img lookup => snd (sensor_cb img lookup p)
  end.

Definition SV_run (cs : list SingleViewCall) (p : Policy) : Policy :=
  fold_left (fun q c => SV_exec c q) cs p.

Definition SV_is_start (c : SingleViewCall) : bool :=
  match c with SV_start => true | _ => false end.

Inductive FixedTrajectoryCall :=
| FT_start (now : R) (lookup : result Transform)
| FT_update (now : R)
| FT_sensor_cb (img : Image) (lookup : result Transform).

Definition FT_exec (c : FixedTrajectoryCall) (s : FixedTrajectoryBaseline)
  : FixedTrajectoryBaseline :=
  match c with
  | FT_start now lookup => snd (FixedTrajectoryBaseline_start now lookup s)
  | FT_update now => snd (FixedTrajectoryBaseline_update now s)
  | FT_sensor_cb img lookup => snd (inherited (sensor_cb img lookup) s)
  end.

Definition FT_run (cs : list FixedTrajectoryCall)
    (s : FixedTrajectoryBaseline) : FixedTrajectoryBaseline :=
  fold_left (fun q c => FT_exec c q) cs s.

Definition FT_is_start (c : FixedTrajectoryCall) : bool :=
  match c with FT_start _ _ => true | _ => false end.

End Policies.

Arguments TSDF : clear implicits.
Arguments Policy : clear implicits.
Arguments Startup : clear implicits.
Arguments FixedTrajectoryBaseline : clear implicits.
Arguments PolicyObject : clear implicits.
Arguments SingleViewCall : clear implicits.
Arguments FixedTrajectoryCall : clear implicits.

(** ** Invariants of method calls *)

(** [m] takes every object to one related to it by [R], whether it returns
    or raises. *)
Definition steps {S A} (R : S -> S -> Prop) (m : M S A) : Prop :=
  forall s, R s (snd (m s)).

(** [done] is as it was, or has been set. *)
Definition done_forward (d d' : option bool) : Prop :=
  d' = d \/ d' = Some true.

Definition policy_forward {Image Intrinsic}
    (p p' : Policy Image Intrinsic) : Prop :=
  done_forward (done p) (done p').

Definition scan_forward {Image Intrinsic}
    (s s' : FixedTrajectoryBaseline Image Intrinsic) : Prop :=
  policy_forward (base s) (base s').

(** [field] reads the same in both objects. *)
Definition unchanged {S A} (field : S -> A) (s s' : S) : Prop :=
  field s' = field s.

(** The volume of [p'] is the volume of [p] with further samples on top. *)
Definition tsdf_extends {Image Intrinsic}
    (p p' : Policy Image Intrinsic) : Prop :=
  exists new, tsdf p' = new ++ tsdf p.

(** A stored grasp is still stored. *)
Definition best_grasp_kept {Image Intrinsic}
    (p p' : Policy Image Intrinsic) : Prop :=
  best_grasp p <> None -> best_grasp p' <> None.

(** Whenever [done] is true a grasp is stored. *)
Definition planned_when_done {Image Intrinsic}
    (p : Policy Image Intrinsic) : Prop :=
  done p = Some true -> best_grasp p <> None.

(** What construction and [start] fix for a scan, and the orientation of the
    commanded pose. *)
Definition scan_frame {Image Intrinsic}
    (s s' : FixedTrajectoryBaseline Image Intrinsic) : Prop :=
  tic s' = tic s /\ origin s' = origin s
  /\ duration s' = duration s /\ radius s' = radius s /\ m s' = m s
  /\ option_map rotation (target s') = option_map rotation (target s).

(** [v] lies on the horizontal circle of radius [r] about [c]. *)
Definition on_circle (c : Vec3) (r : R) (v : Vec3) : Prop :=
  (vx v - vx c) * (vx v - vx c) + (vy v - vy c) * (vy v - vy c) = r * r
  /\ vz v = vz c.

(** ** Concrete objects *)

Module Examples.

(** A half turn about z: the first axis points along -x. *)
Definition back_rotation : Rotation :=
  mkRotation (mkMat3 (-1) 0 0  0 (-1) 0  0 0 1).

Definition grasp_back : Grasp :=
  mkGrasp (mkTransform back_rotation vzero) 0.9 0.04.

Definition grasp_front : Grasp :=
  mkGrasp Transform_identity 0.7 0.04.

(** A candidate turned about y: its first axis is (-0.6, 0, -0.8), pointing
    back and down. *)
Definition tilted_rotation : Rotation :=
  mkRotation (mkMat3 (-0.6) 0 0.8  0 1 0  (-0.8) 0 (-0.6)).

Definition grasp_tilted : Grasp :=
  mkGrasp (mkTransform tilted_rotation vzero) 0.8 0.04.

Definition detect_two : TSDF unit unit -> list Grasp :=
  fun _ => [grasp_back; grasp_front].

Definition detect_none : TSDF unit unit -> list Grasp := fun _ => [].

(** A policy right after construction: no sensor message yet. *)
Definition fresh_policy : Policy unit unit :=
  mkPolicy Transform_identity Transform_identity tt [] None None None None
           [].

(** The same policy after one sensor message. *)
Definition sampled_policy : Policy unit unit :=
  mkPolicy Transform_identity Transform_identity tt []
           (Some tt) (Some Transform_identity) None None [].

Definition x0 : Transform :=
  mkTransform Rotation_identity (mkVec3 0.5 0 0.3).

Definition startup : Startup unit :=
  mkStartup Transform_identity tt (Ok Transform_identity).

(** A [FixedTrajectoryBaseline] on [sampled_policy], started at time 0 with
    the end effector at [x0]. *)
Definition started_scan : FixedTrajectoryBaseline unit unit :=
  snd (FixedTrajectoryBaseline_start 0 (Ok x0)
         (FixedTrajectoryBaseline_init sampled_policy)).

End Examples.

(** * Properties *)

(** ** Algebra of rotations and transforms *)

Lemma Mat3_eq (a b : Mat3) :
  m00 a = m00 b -> m01 a = m01 b -> m02 a = m02 b ->
  m10 a = m10 b -> m11 a = m11 b -> m12 a = m12 b ->
  m20 a = m20 b -> m21 a = m21 b -> m22 a = m22 b ->
  a = b.
Proof.
  destruct a, b; simpl; intros; subst; reflexivity.
Qed.

Lemma Vec3_eq (a b : Vec3) :
  vx a = vx b -> vy a = vy b -> vz a = vz b -> a = b.
Proof.
  destruct a, b; simpl; intros; subst; reflexivity.
Qed.

Ltac spatial_unfold :=
  repeat (progress unfold mul, Transform_mul, Rotation_mul, inv, Rotation_inv,
            Rotation_apply, Transform_identity, Rotation_identity,
            set_rotation, set_translation, vadd, vopp, vzero, mapply, mmul,
            mtranspose, mid, col0 in *);
  simpl in *.

Ltac spatial_eq :=
  spatial_unfold;
  repeat match goal with
         | |- mkTransform _ _ = mkTransform _ _ => f_equal
         | |- mkRotation _ = mkRotation _ => f_equal
         | |- @eq Mat3 _ _ => apply Mat3_eq; simpl
         | |- @eq Vec3 _ _ => apply Vec3_eq; simpl
         end;
  try ring.

Lemma half_turn_z :
  as_matrix (from_euler axis_z PI) = mkMat3 (-1) 0 0  0 (-1) 0  0 0 1.
Proof.
  unfold from_euler; simpl. rewrite cos_PI, sin_PI.
  apply Mat3_eq; simpl; ring.
Qed.

Lemma half_turn_negates_first_axis (rot : Rotation) :
  col0 (as_matrix (rot ** from_euler axis_z PI))
  = vopp (col0 (as_matrix rot)).
Proof.
  unfold mul, Rotation_mul. cbn [as_matrix].
  rewrite half_turn_z. destruct rot as [a]. spatial_eq.
Qed.

Lemma Transform_mul_assoc (a b c : Transform) :
  a ** b ** c = a ** (b ** c).
Proof.
  destruct a as [[a] ta], b as [[b] tb], c as [[c] tc]. spatial_eq.
Qed.

Lemma Transform_mul_identity_r (a : Transform) :
  a ** Transform_identity = a.
Proof.
  destruct a as [[a] [x y z]]. destruct a. spatial_eq.
Qed.

Lemma inv_identity : inv Transform_identity = Transform_identity.
Proof. spatial_eq. Qed.

(** ** The forward-pointing step *)

Lemma point_forward_back (g : Grasp) :
  m00 (as_matrix (rotation (pose g))) < 0 ->
  point_forward g
  = set_pose_rotation g (rotation (pose g) ** from_euler axis_z PI).
Proof.
  intros H. unfold point_forward. simpl.
  destruct (Rlt_dec _ 0) as [_ | n]; [reflexivity | contradiction].
Qed.

Lemma point_forward_front (g : Grasp) :
  0 <= m00 (as_matrix (rotation (pose g))) ->
  point_forward g = g.
Proof.
  intros H. unfold point_forward. simpl.
  destruct (Rlt_dec _ 0) as [l | _]; [lra | reflexivity].
Qed.

Lemma point_forward_keeps (g : Grasp) :
  quality (point_forward g) = quality g
  /\ width (point_forward g) = width g
  /\ translation (pose (point_forward g)) = translation (pose g).
Proof.
  unfold point_forward. simpl.
  destruct (Rlt_dec _ 0); simpl; auto.
Qed.

Lemma half_turn_columns (rot : Rotation) :
  as_matrix (rot ** from_euler axis_z PI)
  = mkMat3 (- m00 (as_matrix rot)) (- m01 (as_matrix rot)) (m02 (as_matrix rot))
           (- m10 (as_matrix rot)) (- m11 (as_matrix rot)) (m12 (as_matrix rot))
           (- m20 (as_matrix rot)) (- m21 (as_matrix rot)) (m22 (as_matrix rot)).
Proof.
  unfold mul, Rotation_mul. cbn [as_matrix].
  rewrite half_turn_z. destruct rot as [a]. spatial_eq.
Qed.

Lemma half_turn_changes_rotation (rot : Rotation) :
  m00 (as_matrix rot) < 0 -> rot ** from_euler axis_z PI <> rot.
Proof.
  intros H E. apply (f_equal (fun r => m00 (as_matrix r))) in E.
  rewrite half_turn_columns in E. cbn [m00] in E. lra.
Qed.

(** ** Grasp selection *)

Section Selection.

Context {Image Intrinsic : Type}.
Variable compute_grasps : TSDF Image Intrinsic -> list Grasp.

Lemma plan_best_grasp_cons (self : Policy Image Intrinsic) g others :
  compute_grasps (tsdf self) = g :: others ->
  plan_best_grasp compute_grasps self
  = (Ok (H_B_T self ** pose (point_forward g) ** inv (H_EE_G self)), self).
Proof.
  intros H. unfold plan_best_grasp. rewrite H. reflexivity.
Qed.

Lemma plan_best_grasp_nil (self : Policy Image Intrinsic) :
  compute_grasps (tsdf self) = [] ->
  plan_best_grasp compute_grasps self = (Raise IndexError, self).
Proof.
  intros H. unfold plan_best_grasp. rewrite H. reflexivity.
Qed.

(** C1.  With [candidate] the selected candidate as the selection step
    leaves it, [plan_best_grasp] returns
    [H_B_T * candidate.pose * H_EE_G.inv()]: the cached base transform, the
    candidate's pose and the inverted grasp offset, in this order (the
    grouping is immaterial).  When the grasp offset is the identity the
    result is [H_B_T * candidate.pose]. *)
Theorem plan_best_grasp_composes_three_transforms :
  forall (self : Policy Image Intrinsic) (g : Grasp) (others : list Grasp),
    compute_grasps (tsdf self) = g :: others ->
    let candidate := point_forward g in
    plan_best_grasp compute_grasps self
    = (Ok (H_B_T self ** pose candidate ** inv (H_EE_G self)), self)
    /\ snd (plan_best_grasp_on (H_B_T self) (H_EE_G self) (g :: others))
       = candidate :: others
    /\ H_B_T self ** pose candidate ** inv (H_EE_G self)
       = H_B_T self ** (pose candidate ** inv (H_EE_G self))
    /\ (H_EE_G self = Transform_identity ->
        fst (plan_best_grasp compute_grasps self)
        = Ok (H_B_T self ** pose candidate)).
Proof.
  intros self g others H candidate.
  rewrite (plan_best_grasp_cons self g others H).
  repeat split.
  - apply Transform_mul_assoc.
  - intros E. simpl. rewrite E, inv_identity, Transform_mul_identity_r.
    reflexivity.
Qed.

(** C2, as the code has it.  On an empty candidate list [plan_best_grasp]
    raises [IndexError], from [grasps[0]]; nothing is returned and the
    policy object is as before. *)
Theorem plan_best_grasp_empty_raises_IndexError :
  forall self : Policy Image Intrinsic,
    compute_grasps (tsdf self) = [] ->
    plan_best_grasp compute_grasps self = (Raise IndexError, self)
    /\ plan_best_grasp_on (H_B_T self) (H_EE_G self) []
       = (Raise IndexError, []).
Proof.
  intros self H. split.
  - apply plan_best_grasp_nil, H.
  - reflexivity.
Qed.

End Selection.

(** C3, refuted.  The turn is not about the vertical axis of the task
    frame: the candidate tilted back and down comes out pointing forward
    and up, which no rotation about the task frame's z axis does to it.  And
    in doubles the turn does not make the x component of the first axis
    non-negative: for [Doubles.barely_back] it is negative before the turn
    and negative after it. *)
Lemma plan_best_grasp_turn_not_about_vertical_axis :
  (~ exists theta : R,
       snd (plan_best_grasp_on Transform_identity Transform_identity
              [Examples.grasp_tilted])
       = [set_pose_rotation Examples.grasp_tilted
            (from_euler axis_z theta
             ** rotation (pose Examples.grasp_tilted))])
  /\ PrimFloat.ltb (Doubles.as_matrix_00 Doubles.barely_back) 0%float = true
  /\ PrimFloat.ltb
       (Doubles.as_matrix_00 (Doubles.point_forward Doubles.barely_back))
       0%float
     = true.
Proof.
  split; [| split; vm_compute; reflexivity].
  intros [theta H]. cbn [plan_best_grasp_on snd] in H.
  rewrite point_forward_back in H by (simpl; lra).
  apply (f_equal (fun l => match l with
                           | g :: _ => m20 (as_matrix (rotation (pose g)))
                           | [] => 0
                           end)) in H.
  unfold set_pose_rotation, set_rotation in H. cbn [pose rotation] in H.
  rewrite half_turn_columns in H. simpl in H. lra.
Qed.

(** C3, as the code has it.  On a non-empty list the first candidate is the
    one selected: the result is composed from it and the candidates after it
    are not looked at.  When the x component of the first column of its
    rotation matrix is negative, its rotation becomes
    [rot * Rotation.from_euler("z", pi)], a half turn about the candidate's
    own z axis: the first two columns of the rotation matrix are negated
    and the third is kept; translation, score and width are kept.
    Otherwise the candidate is as it was. *)
Theorem plan_best_grasp_selects_first_and_turns_about_own_z :
  forall (B E : Transform) (g : Grasp) (others : list Grasp),
    let rot := rotation (pose g) in
    (m00 (as_matrix rot) < 0 ->
     let turned :=
       mkGrasp (mkTransform (rot ** from_euler axis_z PI)
                            (translation (pose g)))
               (quality g) (width g) in
     plan_best_grasp_on B E (g :: others)
     = (Ok (B ** pose turned ** inv E), turned :: others)
     /\ as_matrix (rot ** from_euler axis_z PI)
        = mkMat3
            (- m00 (as_matrix rot)) (- m01 (as_matrix rot)) (m02 (as_matrix rot))
            (- m10 (as_matrix rot)) (- m11 (as_matrix rot)) (m12 (as_matrix rot))
            (- m20 (as_matrix rot)) (- m21 (as_matrix rot))
            (m22 (as_matrix rot)))
    /\ (0 <= m00 (as_matrix rot) ->
        plan_best_grasp_on B E (g :: others)
        = (Ok (B ** pose g ** inv E), g :: others)).
Proof.
  intros B E g others rot. split.
  - intros H turned. split; [| apply half_turn_columns].
    cbn [plan_best_grasp_on]. rewrite (point_forward_back g H).
    reflexivity.
  - intros H. cbn [plan_best_grasp_on].
    rewrite (point_forward_front g H). reflexivity.
Qed.

(** The scenario of C3: of a back-facing candidate scored 0.9 and a
    front-facing one scored 0.7, the first is selected and turned. *)
Example plan_best_grasp_two_candidates :
  exists chosen,
    snd (plan_best_grasp_on Transform_identity Transform_identity
           [Examples.grasp_back; Examples.grasp_front])
    = [chosen; Examples.grasp_front]
    /\ quality chosen = 0.9
    /\ rotation (pose chosen) = Rotation_identity.
Proof.
  exists (point_forward Examples.grasp_back).
  cbn [plan_best_grasp_on snd].
  rewrite point_forward_back by (simpl; lra).
  split; [reflexivity | split; [reflexivity |]].
  unfold set_pose_rotation, set_rotation, mul, Rotation_mul.
  cbn [pose rotation as_matrix]. rewrite half_turn_z. spatial_eq.
Qed.

(** C4, refuted.  In doubles the step is not idempotent: the x component
    of the first axis of [Doubles.barely_back] is still negative after one
    turn, so a second application turns it again, by a further half turn:
    the x component of the second axis is above 1/2 after one application
    and below -1/2 after two. *)
Lemma point_forward_twice_differs_in_doubles :
  Doubles.point_forward (Doubles.point_forward Doubles.barely_back)
  <> Doubles.point_forward Doubles.barely_back
  /\ PrimFloat.ltb 0x1p-1%float
       (Doubles.as_matrix_01 (Doubles.point_forward Doubles.barely_back))
     = true
  /\ PrimFloat.ltb
       (Doubles.as_matrix_01
          (Doubles.point_forward
             (Doubles.point_forward Doubles.barely_back)))
       (-0x1p-1)%float
     = true.
Proof.
  split; [| split; vm_compute; reflexivity].
  intros H.
  apply (f_equal (fun q => PrimFloat.ltb (Doubles.as_matrix_00 q) 0%float)) in H.
  vm_compute in H. discriminate H.
Qed.

(** C4, as the code has it.  The forward-pointing step leaves a candidate
    whose first axis has a non-negative x component untouched, and selection
    leaves a list with such a first candidate untouched.  The same holds in
    doubles, where a second application is a no-op whenever the first has
    left the component non-negative. *)
Theorem point_forward_leaves_forward_pointing_pose :
  (forall g : Grasp,
      0 <= m00 (as_matrix (rotation (pose g))) -> point_forward g = g)
  /\ (forall (B E : Transform) (g : Grasp) (others : list Grasp),
        0 <= m00 (as_matrix (rotation (pose g))) ->
        snd (plan_best_grasp_on B E (g :: others)) = g :: others)
  /\ (forall q : Doubles.Quat,
        PrimFloat.ltb (Doubles.as_matrix_00 q) 0%float = false ->
        Doubles.point_forward q = q)
  /\ (forall q : Doubles.Quat,
        PrimFloat.ltb (Doubles.as_matrix_00 (Doubles.point_forward q))
                      0%float
        = false ->
        Doubles.point_forward (Doubles.point_forward q)
        = Doubles.point_forward q).
Proof.
  assert (K : forall q : Doubles.Quat,
             PrimFloat.ltb (Doubles.as_matrix_00 q) 0%float = false ->
             Doubles.point_forward q = q).
  { intros q H. unfold Doubles.point_forward. rewrite H. reflexivity. }
  repeat apply conj.
  - apply point_forward_front.
  - intros B E g others H. cbn [plan_best_grasp_on snd].
    rewrite (point_forward_front g H). reflexivity.
  - exact K.
  - intros q H. apply K, H.
Qed.

(** C9, refuted: a back-facing first candidate is overwritten in the list
    that the extractor returned. *)
Lemma plan_best_grasp_mutates_first_candidate :
  snd (plan_best_grasp_on Transform_identity Transform_identity
         [Examples.grasp_back; Examples.grasp_front])
  <> [Examples.grasp_back; Examples.grasp_front].
Proof.
  cbn [plan_best_grasp_on snd].
  rewrite point_forward_back by (simpl; lra). intros H.
  apply (f_equal (fun l => match l with
                           | g :: _ => col0 (as_matrix (rotation (pose g)))
                           | [] => vzero
                           end)) in H.
  unfold set_pose_rotation, set_rotation in H. cbn [pose rotation] in H.
  rewrite half_turn_negates_first_axis in H.
  apply (f_equal vx) in H. simpl in H. lra.
Qed.

(** C9, as the code has it.  Selection changes at most the rotation of the
    first candidate's pose: the list keeps its length, every candidate after
    the first is as it was, and every score, width and pose translation is
    as it was.  When the first candidate already points forward the whole
    list is as it was.  When the x component of its first axis is negative,
    its rotation is overwritten with [rot * Rotation.from_euler("z", pi)],
    which is not the rotation it had. *)
Theorem plan_best_grasp_changes_only_first_rotation :
  forall (B E : Transform) (grasps : list Grasp),
    let after := snd (plan_best_grasp_on B E grasps) in
    List.length after = List.length grasps
    /\ tl after = tl grasps
    /\ map quality after = map quality grasps
    /\ map width after = map width grasps
    /\ map (fun g => translation (pose g)) after
       = map (fun g => translation (pose g)) grasps
    /\ (forall g others,
          grasps = g :: others ->
          0 <= m00 (as_matrix (rotation (pose g))) ->
          after = grasps)
    /\ (forall g others,
          grasps = g :: others ->
          m00 (as_matrix (rotation (pose g))) < 0 ->
          after
          = mkGrasp (mkTransform (rotation (pose g) ** from_euler axis_z PI)
                                 (translation (pose g)))
                    (quality g) (width g)
            :: others
          /\ rotation (pose g) ** from_euler axis_z PI
             <> rotation (pose g)).
Proof.
  intros B E [| g others]; simpl.
  - repeat split; intros; discriminate.
  - destruct (point_forward_keeps g) as (Hq & Hw & Ht).
    rewrite Hq, Hw, Ht. repeat split.
    + intros g' others' H Hpos. injection H as <- <-.
      rewrite point_forward_front by assumption. reflexivity.
    + injection H as <- <-.
      rewrite point_forward_back by assumption. reflexivity.
    + injection H as <- <-. apply half_turn_changes_rotation. assumption.
Qed.

(** C2, refuted: on an empty list the exception raised is not a
    [NoGraspFound]. *)
Lemma plan_best_grasp_empty_not_NoGraspFound :
  ~ exists e : exn,
      fst (plan_best_grasp Examples.detect_none Examples.sampled_policy)
      = Raise e
      /\ exn_class e = "NoGraspFound"%string.
Proof.
  intros (e & H & K). cbv in H. injection H as <-. discriminate K.
Qed.

(** ** The two strategies *)

Ltac method_unfold :=
  unfold FixedTrajectoryBaseline_update, FixedTrajectoryBaseline_start,
    SingleViewBaseline_update, SingleViewBaseline_start, sensor_cb,
    integrate_image, plan_best_grasp, inherited, bind, getattr, gets,
    setattr, call in *.

Section Strategies.

Context {Image Intrinsic : Type}.
Variable compute_grasps : TSDF Image Intrinsic -> list Grasp.

Local Abbreviation SV_update := (SingleViewBaseline_update compute_grasps).
Local Abbreviation FT_update := (FixedTrajectoryBaseline_update compute_grasps).

Lemma set_base_base (s : FixedTrajectoryBaseline Image Intrinsic) :
  set_base (base s) s = s.
Proof. destruct s; reflexivity. Qed.

(** C5, as the code has it.  While [last_depth_img] has never been
    assigned, [update] of either strategy raises [AttributeError] when it
    reads that attribute; nothing is integrated or planned and the object
    is as before. *)
Theorem update_without_sample_raises_AttributeError :
  (forall p : Policy Image Intrinsic,
      last_depth_img p = None ->
      SV_update p = (Raise (AttributeError "last_depth_img"), p))
  /\ (forall (s : FixedTrajectoryBaseline Image Intrinsic) (now t0 : R),
        tic s = Some t0 ->
        last_depth_img (base s) = None ->
        FT_update now s = (Raise (AttributeError "last_depth_img"), s)).
Proof.
  split.
  - intros p H. method_unfold. rewrite H. reflexivity.
  - intros s now t0 Ht H. method_unfold. rewrite Ht, H.
    rewrite set_base_base. reflexivity.
Qed.

End Strategies.

(** C5, refuted: before any sensor message the exception raised by
    [update] is not a [SensorUnavailable]. *)
Lemma update_without_sample_not_SensorUnavailable :
  ~ exists e : exn,
      fst (SingleViewBaseline_update Examples.detect_two
             Examples.fresh_policy) = Raise e
      /\ exn_class e = "SensorUnavailable"%string.
Proof.
  intros (e & H & K). cbv in H. injection H as <-. discriminate K.
Qed.

(** ** The scanning motion of [FixedTrajectoryBaseline] *)

Section Scanning.

Context {Image Intrinsic : Type}.
Variable compute_grasps : TSDF Image Intrinsic -> list Grasp.

Local Abbreviation FT := (FixedTrajectoryBaseline Image Intrinsic).
Local Abbreviation FT_update := (FixedTrajectoryBaseline_update compute_grasps).

Lemma interp1d_angle (D t : R) :
  0 < D -> 0 <= t <= D ->
  interp1d_call (mkInterp1d 0 D PI (3.0 * PI)) t
  = Ok (PI + t / D * (2 * PI)).
Proof.
  intros HD Ht. unfold interp1d_call. cbn [x_lo x_hi y_lo y_hi].
  destruct (Rlt_dec t 0) as [l | _]; [lra |].
  destruct (Rgt_dec t D) as [l | _]; [lra |].
  f_equal. replace 3.0 with 3 by lra. field. lra.
Qed.

Lemma FT_update_motion (s : FT) (now t0 : R) img ext c x :
  tic s = Some t0 ->
  last_depth_img (base s) = Some img ->
  last_extrinsic (base s) = Some ext ->
  origin s = Some c ->
  target s = Some x ->
  m s = mkInterp1d 0 (duration s) PI (3.0 * PI) ->
  0 < duration s ->
  0 <= now - t0 <= duration s ->
  let angle := PI + (now - t0) / duration s * (2 * PI) in
  let x' := set_translation x
              (vadd c (mkVec3 (radius s * cos angle)
                              (radius s * sin angle) 0)) in
  FT_update now s
  = (Ok tt,
     mkFixedTrajectoryBaseline
       (publish x' (set_tsdf ((img, intrinsic (base s), ext)
                                :: tsdf (base s)) (base s)))
       (duration s) (radius s) (m s) (tic s) (origin s) (Some x')).
Proof.
  intros Ht Hi He Ho Hx Hm HD Hel angle x'. subst angle x'.
  destruct s as [p D r f tc o tg].
  cbn [base duration radius m tic origin target] in *. subst tc o tg f.
  unfold FixedTrajectoryBaseline_update, inherited, integrate_image, bind,
    getattr, gets, setattr, call, set_base, set_target.
  cbn [base duration radius m tic origin target].
  rewrite Hi, He.
  cbn [base duration radius m tic origin target].
  destruct (Rgt_dec (now - t0) D) as [l | _]; [lra |].
  cbn [base duration radius m tic origin target].
  rewrite (interp1d_angle D (now - t0) HD Hel).
  reflexivity.
Qed.


Lemma FT_update_planning (s : FT) (now t0 : R) img ext :
  tic s = Some t0 ->
  last_depth_img (base s) = Some img ->
  last_extrinsic (base s) = Some ext ->
  now - t0 > duration s ->
  let p := set_tsdf ((img, intrinsic (base s), ext) :: tsdf (base s))
                    (base s) in
  FT_update now s
  = match compute_grasps (tsdf p) with
    | [] => (Raise IndexError, set_base p s)
    | g :: _ =>
        (Ok tt,
         set_base
           (set_done true
              (set_best_grasp
                 (H_B_T p ** pose (point_forward g) ** inv (H_EE_G p)) p))
           s)
    end.
Proof.
  intros Ht Hi He Hel p. subst p.
  destruct s as [p D r f tc o tg].
  cbn [base duration radius m tic origin target] in *. subst tc.
  unfold FixedTrajectoryBaseline_update, inherited, integrate_image,
    plan_best_grasp, bind, getattr, gets, setattr, call, set_base.
  cbn [base duration radius m tic origin target].
  rewrite Hi, He.
  cbn [base duration radius m tic origin target].
  destruct (Rgt_dec (now - t0) D) as [_ | n]; [| contradiction].
  cbn [base duration radius m tic origin target].
  destruct (compute_grasps _) as [| g others]; reflexivity.
Qed.

(** C6.  A [FixedTrajectoryBaseline] is built with duration 4.0 and radius
    0.1.  Started at an end-effector pose [x0] with translation
    (0.5, 0, 0.3), its origin is (0.6, 0, 0.3).  The update at elapsed time
    0 interpolates the angle [PI] and publishes a pose with translation
    (0.5, 0, 0.3) and the rotation of [x0]; the update at elapsed time 2.0
    interpolates [2 * PI] and publishes translation (0.7, 0, 0.3).  At every
    elapsed time [t] in [[0, 4.0]] the angle is [PI + t / 4.0 * (2 * PI)]
    and the published translation is
    [origin + (0.1 * cos angle, 0.1 * sin angle, 0)]. *)
Theorem fixed_trajectory_circle_scenario :
  forall (p : Policy Image Intrinsic) (img : Image) (ext x0 : Transform)
         (t0 : R),
    last_depth_img p = Some img ->
    last_extrinsic p = Some ext ->
    translation x0 = mkVec3 0.5 0 0.3 ->
    let s0 := FixedTrajectoryBaseline_init p in
    let s1 := snd (FixedTrajectoryBaseline_start t0 (Ok x0) s0) in
    let r2 := FT_update (t0 + 0) s1 in
    let r3 := FT_update (t0 + 2.0) (snd r2) in
    duration s0 = 4.0 /\ radius s0 = 0.1
    /\ origin s1 = Some (mkVec3 0.6 0 0.3)
    /\ interp1d_call (m s1) 0 = Ok PI
    /\ interp1d_call (m s1) 2.0 = Ok (2 * PI)
    /\ (exists pose1 pose2,
          fst r2 = Ok tt
          /\ target_pose_pub (base (snd r2)) = pose1 :: target_pose_pub p
          /\ translation pose1 = mkVec3 0.5 0 0.3
          /\ translation pose1 = translation x0
          /\ rotation pose1 = rotation x0
          /\ fst r3 = Ok tt
          /\ target_pose_pub (base (snd r3))
             = pose2 :: pose1 :: target_pose_pub p
          /\ translation pose2 = mkVec3 0.7 0 0.3
          /\ rotation pose2 = rotation x0)
    /\ (forall t : R,
          0 <= t <= 4.0 ->
          let angle := PI + t / 4.0 * (2 * PI) in
          interp1d_call (m s1) t = Ok angle
          /\ fst (FT_update (t0 + t) s1) = Ok tt
          /\ option_map translation
               (hd_error (target_pose_pub
                            (base (snd (FT_update (t0 + t) s1)))))
             = Some (vadd (mkVec3 0.6 0 0.3)
                          (mkVec3 (0.1 * cos angle) (0.1 * sin angle) 0))).
Proof.
  intros p img ext x0 t0 Hi He Hx s0 s1 r2 r3.
  set (c := mkVec3 (0.5 + 0.1) 0 0.3).
  assert (E1 : s1 = mkFixedTrajectoryBaseline (set_done false p) 4.0 0.1
                      (mkInterp1d 0 4.0 PI (3.0 * PI))
                      (Some t0) (Some c) (Some x0)).
  { subst s1 s0 c.
    unfold FixedTrajectoryBaseline_start, FixedTrajectoryBaseline_init,
      inherited, bind, gets, setattr, call, set_tic, set_origin, set_target,
      set_base.
    cbn [snd base duration radius m tic origin target]. rewrite Hx.
    reflexivity. }
  assert (Hm : forall t, 0 <= t <= 4.0 ->
                 interp1d_call (m s1) t = Ok (PI + t / 4.0 * (2 * PI))).
  { intros t Ht. rewrite E1. apply interp1d_angle; lra. }
  assert (Hmove : forall (q : Policy Image Intrinsic) x t,
             last_depth_img q = Some img -> last_extrinsic q = Some ext ->
             0 <= t <= 4.0 ->
             exists x',
               FT_update (t0 + t)
                 (mkFixedTrajectoryBaseline q 4.0 0.1
                    (mkInterp1d 0 4.0 PI (3.0 * PI))
                    (Some t0) (Some c) (Some x))
               = (Ok tt,
                  mkFixedTrajectoryBaseline
                    (publish x' (set_tsdf ((img, intrinsic q, ext) :: tsdf q)
                                          q))
                    4.0 0.1 (mkInterp1d 0 4.0 PI (3.0 * PI))
                    (Some t0) (Some c) (Some x'))
               /\ rotation x' = rotation x
               /\ translation x'
                  = vadd c (mkVec3 (0.1 * cos (PI + t / 4.0 * (2 * PI)))
                                   (0.1 * sin (PI + t / 4.0 * (2 * PI))) 0)).
  { intros q x t Hqi Hqe Ht.
    pose proof (FT_update_motion
                  (mkFixedTrajectoryBaseline q 4.0 0.1
                     (mkInterp1d 0 4.0 PI (3.0 * PI))
                     (Some t0) (Some c) (Some x))
                  (t0 + t) t0 img ext c x
                  eq_refl Hqi Hqe eq_refl eq_refl eq_refl) as H.
    cbn [base duration radius m tic origin target] in H.
    replace (t0 + t - t0) with t in H by ring.
    eexists. split; [apply H; lra |]. split; reflexivity. }
  split; [reflexivity |]. split; [reflexivity |].
  split. { rewrite E1. cbn [origin]. subst c. do 2 f_equal. lra. }
  split. { rewrite Hm by lra. f_equal. lra. }
  split. { rewrite Hm by lra. f_equal. lra. }
  split.
  - destruct (Hmove (set_done false p) x0 0) as (pose1 & E2 & R1 & T1);
      [exact Hi | exact He | lra |].
    assert (F2 : r2 = FT_update (t0 + 0) s1) by reflexivity.
    rewrite E1, E2 in F2.
    destruct (Hmove (publish pose1
                       (set_tsdf ((img, intrinsic (set_done false p), ext)
                                    :: tsdf (set_done false p))
                                 (set_done false p))) pose1 2.0)
      as (pose2 & E3 & R2 & T2); [exact Hi | exact He | lra |].
    assert (F3 : r3 = FT_update (t0 + 2.0) (snd r2)) by reflexivity.
    rewrite F2 in F3. cbn [snd] in F3. rewrite E3 in F3.
    exists pose1, pose2. rewrite F2, F3. cbn [fst snd base].
    assert (T1' : translation pose1 = mkVec3 0.5 0 0.3).
    { rewrite T1. subst c. apply Vec3_eq; cbn [vadd vx vy vz].
      - replace (PI + 0 / 4.0 * (2 * PI)) with PI by lra.
        rewrite cos_PI. lra.
      - replace (PI + 0 / 4.0 * (2 * PI)) with PI by lra.
        rewrite sin_PI. lra.
      - lra. }
    repeat split; try reflexivity; try assumption.
    + rewrite T1', Hx. reflexivity.
    + rewrite T2. subst c. apply Vec3_eq; cbn [vadd vx vy vz].
      * replace (PI + 2.0 / 4.0 * (2 * PI)) with (2 * PI) by lra.
        rewrite cos_2PI. lra.
      * replace (PI + 2.0 / 4.0 * (2 * PI)) with (2 * PI) by lra.
        rewrite sin_2PI. lra.
      * lra.
    + rewrite R2, R1. reflexivity.
  - intros t Ht angle. subst angle.
    destruct (Hmove (set_done false p) x0 t) as (x' & E2 & R1 & T1);
      [exact Hi | exact He | lra |].
    rewrite Hm by lra. rewrite E1, E2. cbn [fst snd base].
    split; [reflexivity |]. split; [reflexivity |].
    unfold publish. cbn [target_pose_pub hd_error option_map].
    rewrite T1. subst c.
    replace (0.5 + 0.1) with 0.6 by lra. reflexivity.
Qed.


(** C7, as the code has it.  The guard is [elapsed_time > self.duration].
    An update at an elapsed time equal to the duration still publishes a
    pose, at the angle [3 * PI], that is at [origin - (radius, 0, 0)], and
    leaves [done] and [best_grasp] as they were.  An update at an elapsed
    time greater than the duration plans, stores the grasp, sets [done] and
    publishes nothing. *)
Theorem update_plans_only_after_duration :
  forall (s : FT) (now t0 : R) (img : Image) (ext x : Transform) (c : Vec3),
    tic s = Some t0 ->
    last_depth_img (base s) = Some img ->
    last_extrinsic (base s) = Some ext ->
    origin s = Some c ->
    target s = Some x ->
    m s = mkInterp1d 0 (duration s) PI (3.0 * PI) ->
    0 < duration s ->
    let p := set_tsdf ((img, intrinsic (base s), ext) :: tsdf (base s))
                      (base s) in
    (now - t0 = duration s ->
     exists msg,
       fst (FT_update now s) = Ok tt
       /\ done (base (snd (FT_update now s))) = done (base s)
       /\ best_grasp (base (snd (FT_update now s))) = best_grasp (base s)
       /\ target_pose_pub (base (snd (FT_update now s)))
          = msg :: target_pose_pub (base s)
       /\ rotation msg = rotation x
       /\ translation msg = vadd c (mkVec3 (- radius s) 0 0))
    /\ (now - t0 > duration s ->
        forall g others,
          compute_grasps (tsdf p) = g :: others ->
          fst (FT_update now s) = Ok tt
          /\ done (base (snd (FT_update now s))) = Some true
          /\ best_grasp (base (snd (FT_update now s)))
             = Some (H_B_T p ** pose (point_forward g) ** inv (H_EE_G p))
          /\ target_pose_pub (base (snd (FT_update now s)))
             = target_pose_pub (base s)).
Proof.
  intros s now t0 img ext x c Ht Hi He Ho Hx Hm HD p. split.
  - intros Hel.
    rewrite (FT_update_motion s now t0 img ext c x) by (assumption || lra).
    eexists. cbn [fst snd base].
    repeat (split; [reflexivity |]).
    cbn [set_translation translation]. rewrite Hel.
    replace (PI + duration s / duration s * (2 * PI)) with (PI + 2 * PI)
      by (field; lra).
    rewrite cos_plus, sin_plus, cos_PI, sin_PI, cos_2PI, sin_2PI.
    f_equal. f_equal; ring.
  - intros Hel g others Hg.
    rewrite (FT_update_planning s now t0 img ext) by assumption.
    fold p. rewrite Hg. cbn [fst snd]. unfold set_base. cbn [base].
    repeat split.
Qed.

End Scanning.

(** C7, refuted: after a start at time 0 the update at time 4.0, the
    duration, publishes a pose and does not plan. *)
Lemma update_at_duration_does_not_plan :
  fst (FixedTrajectoryBaseline_update Examples.detect_two 4.0
         Examples.started_scan) = Ok tt
  /\ done (base (snd (FixedTrajectoryBaseline_update Examples.detect_two 4.0
                        Examples.started_scan))) = Some false
  /\ best_grasp (base (snd (FixedTrajectoryBaseline_update
                              Examples.detect_two 4.0
                              Examples.started_scan))) = None
  /\ List.length
       (target_pose_pub
          (base (snd (FixedTrajectoryBaseline_update Examples.detect_two 4.0
                        Examples.started_scan)))) = 1%nat.
Proof.
  rewrite (FT_update_motion Examples.detect_two Examples.started_scan 4.0 0
             tt Transform_identity
             (mkVec3 (0.5 + 0.1) 0 0.3) Examples.x0).
  - repeat split.
  - reflexivity.
  - reflexivity.
  - reflexivity.
  - reflexivity.
  - reflexivity.
  - reflexivity.
  - change (0 < 4.0). lra.
  - change (0 <= 4.0 - 0 <= 4.0). lra.
Qed.

(** ** Episodes *)

Section Episodes.

Context {Image Intrinsic : Type}.
Variable compute_grasps : TSDF Image Intrinsic -> list Grasp.

Local Abbreviation FT := (FixedTrajectoryBaseline Image Intrinsic).
Local Abbreviation SV_update := (SingleViewBaseline_update compute_grasps).
Local Abbreviation FT_update := (FixedTrajectoryBaseline_update compute_grasps).

Lemma state_le_refl (a : EpisodeState) : state_le a a.
Proof. unfold state_le. apply le_n. Qed.

Lemma state_le_trans (a b c : EpisodeState) :
  state_le a b -> state_le b c -> state_le a c.
Proof. unfold state_le. apply PeanoNat.Nat.le_trans. Qed.

Lemma state_le_Done (d : option bool) :
  state_le (state_of_done d) (state_of_done (Some true)).
Proof. destruct d as [[|] |]; unfold state_le; simpl; auto. Qed.

Lemma done_forward_le (d d' : option bool) :
  done_forward d d' -> state_le (state_of_done d) (state_of_done d').
Proof.
  intros [-> | ->]; [apply state_le_refl | apply state_le_Done].
Qed.

Section Steps.

Context {S : Type} (R : S -> S -> Prop).
Hypothesis R_refl : forall s, R s s.
Hypothesis R_trans : forall a b c, R a b -> R b c -> R a c.

Lemma steps_bind {A B} (f : M S A) (k : A -> M S B) :
  steps R f -> (forall a, steps R (k a)) -> steps R (bind f k).
Proof using R_refl R_trans.
  intros Hf Hk s. unfold bind. specialize (Hf s).
  destruct (f s) as [[a | e] s']; cbn [snd] in *.
  - eapply R_trans; [exact Hf | apply Hk].
  - exact Hf.
Qed.

Lemma steps_gets {A} (field : S -> A) : steps R (gets field).
Proof using R_refl. intros s. apply R_refl. Qed.

Lemma steps_getattr {A} name (field : S -> option A) :
  steps R (getattr name field).
Proof using R_refl.
  intros s. unfold getattr. destruct (field s); apply R_refl.
Qed.

Lemma steps_call {A} (outcome : result A) : steps R (@call S A outcome).
Proof using R_refl. intros s. apply R_refl. Qed.

Lemma steps_setattr (update : S -> S) :
  (forall s, R s (update s)) -> steps R (setattr update).
Proof. intros H s. apply H. Qed.

End Steps.

Lemma done_forward_refl d : done_forward d d.
Proof. left. reflexivity. Qed.

Lemma done_forward_trans a b c :
  done_forward a b -> done_forward b c -> done_forward a c.
Proof. unfold done_forward. intros [-> | ->] [-> | ->]; auto. Qed.

Lemma policy_forward_refl (p : Policy Image Intrinsic) : policy_forward p p.
Proof. apply done_forward_refl. Qed.

Lemma policy_forward_trans (a b c : Policy Image Intrinsic) :
  policy_forward a b -> policy_forward b c -> policy_forward a c.
Proof. apply done_forward_trans. Qed.

Lemma scan_forward_refl (s : FT) : scan_forward s s.
Proof. apply done_forward_refl. Qed.

Lemma scan_forward_trans (a b c : FT) :
  scan_forward a b -> scan_forward b c -> scan_forward a c.
Proof. apply done_forward_trans. Qed.

Lemma steps_inherited {A} (f : M (Policy Image Intrinsic) A) :
  steps policy_forward f -> steps scan_forward (inherited f).
Proof.
  intros H s. unfold inherited. specialize (H (base s)).
  destruct (f (base s)) as [r p]. exact H.
Qed.

Ltac policy_steps :=
  repeat first
    [ apply (steps_bind _ policy_forward_refl policy_forward_trans)
    | apply (steps_gets _ policy_forward_refl)
    | apply (steps_getattr _ policy_forward_refl)
    | apply (steps_call _ policy_forward_refl)
    | apply steps_setattr; intros ?; try (left; reflexivity);
      try (right; reflexivity)
    | intros ? ].

Ltac scan_steps :=
  repeat first
    [ apply (steps_bind _ scan_forward_refl scan_forward_trans)
    | apply (steps_gets _ scan_forward_refl)
    | apply (steps_getattr _ scan_forward_refl)
    | apply (steps_call _ scan_forward_refl)
    | apply steps_inherited; policy_steps
    | apply steps_setattr; intros ?; try (left; reflexivity);
      try (right; reflexivity)
    | intros ? ].

Lemma integrate_image_steps :
  steps policy_forward (@integrate_image Image Intrinsic).
Proof. unfold integrate_image. policy_steps. Qed.

Lemma plan_best_grasp_steps :
  steps policy_forward (plan_best_grasp compute_grasps).
Proof. intros p. left. reflexivity. Qed.

Lemma sensor_cb_steps img lookup :
  steps policy_forward (@sensor_cb Image Intrinsic img lookup).
Proof. unfold sensor_cb. policy_steps. Qed.

Lemma SV_update_steps : steps policy_forward SV_update.
Proof.
  unfold SingleViewBaseline_update.
  apply (steps_bind _ policy_forward_refl policy_forward_trans);
    [apply integrate_image_steps | intros _].
  apply (steps_bind _ policy_forward_refl policy_forward_trans);
    [apply plan_best_grasp_steps | intros grasp].
  policy_steps.
Qed.

Lemma FT_update_steps (now : R) : steps scan_forward (FT_update now).
Proof.
  unfold FixedTrajectoryBaseline_update.
  apply (steps_bind _ scan_forward_refl scan_forward_trans);
    [apply (steps_getattr _ scan_forward_refl) | intros t0].
  apply (steps_bind _ scan_forward_refl scan_forward_trans);
    [apply steps_inherited, integrate_image_steps | intros _].
  apply (steps_bind _ scan_forward_refl scan_forward_trans);
    [apply (steps_gets _ scan_forward_refl) | intros D].
  destruct (Rgt_dec (now - t0) D).
  - apply (steps_bind _ scan_forward_refl scan_forward_trans);
      [apply steps_inherited, plan_best_grasp_steps | intros grasp].
    scan_steps.
  - scan_steps.
Qed.

Lemma SV_exec_forward (c : SingleViewCall Image) p :
  SV_is_start c = false ->
  state_le (state_of_done (done p))
           (state_of_done (done (SV_exec compute_grasps c p))).
Proof.
  destruct c as [| | img lookup]; cbn [SV_is_start SV_exec]; intros H.
  - discriminate.
  - apply done_forward_le, SV_update_steps.
  - apply done_forward_le, sensor_cb_steps.
Qed.

Lemma FT_exec_forward (c : FixedTrajectoryCall Image) (s : FT) :
  FT_is_start c = false ->
  state_le (state_of_done (done (base s)))
           (state_of_done (done (base (FT_exec compute_grasps c s)))).
Proof.
  destruct c as [now lookup | now | img lookup];
    cbn [FT_is_start FT_exec]; intros H.
  - discriminate.
  - apply done_forward_le, FT_update_steps.
  - apply done_forward_le. apply (steps_inherited _ (sensor_cb_steps _ _)).
Qed.

(** C8, as the code has it.  For either strategy no [update] and no sensor
    callback takes the episode state backwards, along any sequence of such
    calls; in particular [update] never turns [done] from true to false.
    [start] assigns [done = False] whatever the state was, so a finished
    episode is running again after it. *)
Theorem episode_state_regresses_only_on_start :
  (forall (cs : list (SingleViewCall Image)) p,
      forallb (fun c => negb (SV_is_start c)) cs = true ->
      state_le (state_of_done (done p))
               (state_of_done (done (SV_run compute_grasps cs p))))
  /\ (forall (cs : list (FixedTrajectoryCall Image)) (s : FT),
        forallb (fun c => negb (FT_is_start c)) cs = true ->
        state_le (state_of_done (done (base s)))
                 (state_of_done
                    (done (base (FT_run compute_grasps cs s)))))
  /\ (forall p : Policy Image Intrinsic,
        done p = Some true -> done (snd (SV_update p)) = Some true)
  /\ (forall (s : FT) (now : R),
        done (base s) = Some true ->
        done (base (snd (FT_update now s))) = Some true)
  /\ (forall p : Policy Image Intrinsic,
        state_of_done (done (snd (SingleViewBaseline_start p))) = Running)
  /\ (forall (s : FT) (now : R) (x0 : Transform),
        state_of_done
          (done (base (snd (FixedTrajectoryBaseline_start now (Ok x0) s))))
        = Running).
Proof.
  repeat apply conj.
  - intros cs. unfold SV_run.
    induction cs as [| c cs IH]; intros p H; cbn [fold_left].
    + apply state_le_refl.
    + cbn [forallb] in H. apply andb_prop in H as [Hc Hcs].
      apply Bool.negb_true_iff in Hc.
      eapply state_le_trans; [apply (SV_exec_forward c p Hc) |].
      apply IH, Hcs.
  - intros cs. unfold FT_run.
    induction cs as [| c cs IH]; intros s H; cbn [fold_left].
    + apply state_le_refl.
    + cbn [forallb] in H. apply andb_prop in H as [Hc Hcs].
      apply Bool.negb_true_iff in Hc.
      eapply state_le_trans; [apply (FT_exec_forward c s Hc) |].
      apply IH, Hcs.
  - intros p H. destruct (SV_update_steps p) as [K | K]; congruence.
  - intros s now H. destruct (FT_update_steps now s) as [K | K]; congruence.
  - reflexivity.
  - reflexivity.
Qed.

(** *** The factory *)

(** C10.  [get_policy] constructs a [SingleViewBaseline] for the name
    "single-view", a [FixedTrajectoryBaseline] for "fixed-trajectory", and
    for every other name raises a [ValueError] whose message is the name
    followed by " policy does not exist.". *)
Theorem get_policy_dispatches_on_name :
  forall env : Startup Intrinsic,
    get_policy env "single-view" = @SingleViewBaseline_new Image _ env
    /\ get_policy env "fixed-trajectory"
       = @FixedTrajectoryBaseline_new Image _ env
    /\ (forall p : Policy Image Intrinsic,
          Policy_init env = Ok p ->
          get_policy env "single-view" = Ok (SingleView p)
          /\ get_policy env "fixed-trajectory"
             = Ok (FixedTrajectory (FixedTrajectoryBaseline_init p)))
    /\ (forall name : string,
          name <> "single-view"%string ->
          name <> "fixed-trajectory"%string ->
          @get_policy Image _ env name
          = Raise (ValueError (name ++ " policy does not exist."))).
Proof.
  intros env. repeat apply conj.
  - reflexivity.
  - reflexivity.
  - intros p H. cbn [get_policy String.eqb Ascii.eqb Bool.eqb].
    unfold SingleViewBaseline_new, FixedTrajectoryBaseline_new.
    rewrite H. split; reflexivity.
  - intros name H1 H2. unfold get_policy.
    apply String.eqb_neq in H1, H2. rewrite H1, H2. reflexivity.
Qed.

End Episodes.

(** C8, refuted: a single-view episode that has finished is running again
    after a second [start]. *)
Lemma episode_state_regresses_on_restart :
  state_of_done
    (done (SV_run Examples.detect_two [SV_start; SV_update]
                  Examples.sampled_policy)) = Done
  /\ state_of_done
       (done (SV_run Examples.detect_two [SV_start; SV_update; SV_start]
                     Examples.sampled_policy)) = Running
  /\ ~ state_le Done Running.
Proof.
  split; [reflexivity |]. split; [reflexivity |].
  unfold state_le. simpl. intros H. inversion H as [| n K]. inversion K.
Qed.

(** ** The theorems at concrete objects *)

Lemma plan_best_grasp_composes_three_transforms_witness :
  Examples.detect_two (tsdf Examples.sampled_policy)
  = [Examples.grasp_back; Examples.grasp_front]
  /\ H_EE_G Examples.sampled_policy = Transform_identity
  /\ fst (plan_best_grasp Examples.detect_two Examples.sampled_policy)
     = Ok (H_B_T Examples.sampled_policy
           ** pose (point_forward Examples.grasp_back)).
Proof.
  split; [reflexivity |]. split; [reflexivity |].
  destruct (plan_best_grasp_composes_three_transforms
              Examples.detect_two Examples.sampled_policy
              Examples.grasp_back [Examples.grasp_front] eq_refl)
    as (_ & _ & _ & H).
  apply H. reflexivity.
Defined.

Lemma plan_best_grasp_empty_raises_IndexError_witness :
  Examples.detect_none (tsdf Examples.sampled_policy) = []
  /\ plan_best_grasp Examples.detect_none Examples.sampled_policy
     = (Raise IndexError, Examples.sampled_policy).
Proof.
  split; [reflexivity |].
  apply (plan_best_grasp_empty_raises_IndexError
           Examples.detect_none Examples.sampled_policy eq_refl).
Defined.

Lemma plan_best_grasp_selects_first_and_turns_about_own_z_witness :
  m00 (as_matrix (rotation (pose Examples.grasp_back))) < 0
  /\ snd (plan_best_grasp_on Transform_identity Transform_identity
            [Examples.grasp_back; Examples.grasp_front])
     = [mkGrasp (mkTransform (Examples.back_rotation ** from_euler axis_z PI)
                             vzero) 0.9 0.04;
        Examples.grasp_front].
Proof.
  assert (Hneg : m00 (as_matrix (rotation (pose Examples.grasp_back))) < 0)
    by (simpl; lra).
  split; [exact Hneg |].
  destruct (plan_best_grasp_selects_first_and_turns_about_own_z
              Transform_identity Transform_identity
              Examples.grasp_back [Examples.grasp_front])
    as (Hback & _).
  destruct (Hback Hneg) as (E & _).
  rewrite E. reflexivity.
Defined.

Lemma point_forward_leaves_forward_pointing_pose_witness :
  0 <= m00 (as_matrix (rotation (pose Examples.grasp_front)))
  /\ point_forward Examples.grasp_front = Examples.grasp_front.
Proof.
  assert (Hpos : 0 <= m00 (as_matrix (rotation (pose Examples.grasp_front))))
    by (simpl; lra).
  split; [exact Hpos |].
  destruct point_forward_leaves_forward_pointing_pose as (H & _).
  apply H, Hpos.
Defined.

Lemma plan_best_grasp_changes_only_first_rotation_witness :
  (0 <= m00 (as_matrix (rotation (pose Examples.grasp_front)))
   /\ snd (plan_best_grasp_on Transform_identity Transform_identity
             [Examples.grasp_front; Examples.grasp_back])
      = [Examples.grasp_front; Examples.grasp_back])
  /\ (m00 (as_matrix (rotation (pose Examples.grasp_back))) < 0
      /\ snd (plan_best_grasp_on Transform_identity Transform_identity
                [Examples.grasp_back; Examples.grasp_front])
         = [mkGrasp (mkTransform
                       (Examples.back_rotation ** from_euler axis_z PI)
                       vzero) 0.9 0.04;
            Examples.grasp_front]).
Proof.
  assert (Hpos : 0 <= m00 (as_matrix (rotation (pose Examples.grasp_front))))
    by (simpl; lra).
  assert (Hneg : m00 (as_matrix (rotation (pose Examples.grasp_back))) < 0)
    by (simpl; lra).
  split; (split; [assumption |]).
  - destruct (plan_best_grasp_changes_only_first_rotation
                Transform_identity Transform_identity
                [Examples.grasp_front; Examples.grasp_back])
      as (_ & _ & _ & _ & _ & H & _).
    apply (H Examples.grasp_front [Examples.grasp_back] eq_refl Hpos).
  - destruct (plan_best_grasp_changes_only_first_rotation
                Transform_identity Transform_identity
                [Examples.grasp_back; Examples.grasp_front])
      as (_ & _ & _ & _ & _ & _ & H).
    destruct (H Examples.grasp_back [Examples.grasp_front] eq_refl Hneg)
      as (E & _).
    exact E.
Defined.

Lemma update_without_sample_raises_AttributeError_witness :
  last_depth_img Examples.fresh_policy = None
  /\ SingleViewBaseline_update Examples.detect_two Examples.fresh_policy
     = (Raise (AttributeError "last_depth_img"), Examples.fresh_policy).
Proof.
  split; [reflexivity |].
  destruct (update_without_sample_raises_AttributeError Examples.detect_two)
    as (H & _).
  apply H. reflexivity.
Defined.

Lemma fixed_trajectory_circle_scenario_witness :
  (last_depth_img Examples.sampled_policy = Some tt
   /\ last_extrinsic Examples.sampled_policy = Some Transform_identity
   /\ translation Examples.x0 = mkVec3 0.5 0 0.3)
  /\ origin Examples.started_scan = Some (mkVec3 0.6 0 0.3).
Proof.
  split; [repeat split |].
  destruct (fixed_trajectory_circle_scenario
              Examples.detect_two Examples.sampled_policy tt
              Transform_identity Examples.x0 0 eq_refl eq_refl eq_refl)
    as (_ & _ & H & _).
  exact H.
Defined.

Lemma update_plans_only_after_duration_witness :
  (tic Examples.started_scan = Some 0
   /\ 0 < duration Examples.started_scan
   /\ 4.0 - 0 = duration Examples.started_scan)
  /\ fst (FixedTrajectoryBaseline_update Examples.detect_two 4.0
            Examples.started_scan) = Ok tt
  /\ done (base (snd (FixedTrajectoryBaseline_update Examples.detect_two 4.0
                        Examples.started_scan)))
     = done (base Examples.started_scan).
Proof.
  assert (HD : 0 < duration Examples.started_scan)
    by (change (0 < 4.0); lra).
  assert (Hel : 4.0 - 0 = duration Examples.started_scan)
    by (change (4.0 - 0 = 4.0); lra).
  split; [repeat split; assumption |].
  destruct (update_plans_only_after_duration
              Examples.detect_two Examples.started_scan 4.0 0 tt
              Transform_identity Examples.x0 (mkVec3 (0.5 + 0.1) 0 0.3)
              eq_refl eq_refl eq_refl eq_refl eq_refl eq_refl HD)
    as (H & _).
  destruct (H Hel) as (msg & H1 & H2 & _).
  split; assumption.
Defined.

Lemma episode_state_regresses_only_on_start_witness :
  forallb (fun c => negb (SV_is_start c))
          [SV_update; SV_sensor_cb tt (Ok Transform_identity); SV_update]
  = true
  /\ state_le
       (state_of_done (done Examples.sampled_policy))
       (state_of_done
          (done (SV_run Examples.detect_two
                   [SV_update; SV_sensor_cb tt (Ok Transform_identity);
                    SV_update]
                   Examples.sampled_policy))).
Proof.
  split; [reflexivity |].
  destruct (episode_state_regresses_only_on_start Examples.detect_two)
    as (H & _).
  apply H. reflexivity.
Defined.

Lemma get_policy_dispatches_on_name_witness :
  "multi-view"%string <> "single-view"%string
  /\ "multi-view"%string <> "fixed-trajectory"%string
  /\ @get_policy unit unit Examples.startup "multi-view"
     = Raise (ValueError "multi-view policy does not exist.").
Proof.
  assert (H1 : "multi-view"%string <> "single-view"%string)
    by discriminate.
  assert (H2 : "multi-view"%string <> "fixed-trajectory"%string)
    by discriminate.
  split; [exact H1 |]. split; [exact H2 |].
  destruct (@get_policy_dispatches_on_name unit unit Examples.startup)
    as (_ & _ & _ & H).
  apply (H "multi-view"%string H1 H2).
Defined.

(** * Further properties of the policies *)

Section MethodEquations.

Context {Image Intrinsic : Type}.
Variable compute_grasps : TSDF Image Intrinsic -> list Grasp.

Local Abbreviation PolicyT := (Policy Image Intrinsic).
Local Abbreviation ScanT := (FixedTrajectoryBaseline Image Intrinsic).

(** The sample that [update] hands to the volume. *)
Lemma integrate_image_cases (p : PolicyT) :
  integrate_image p
  = match last_depth_img p, last_extrinsic p with
    | None, _ => (Raise (AttributeError "last_depth_img"), p)
    | Some _, None => (Raise (AttributeError "last_extrinsic"), p)
    | Some img, Some ext =>
        (Ok tt, set_tsdf ((img, intrinsic p, ext) :: tsdf p) p)
    end.
Proof.
  unfold integrate_image, bind, getattr, gets, setattr.
  destruct (last_depth_img p); [| reflexivity].
  destruct (last_extrinsic p); reflexivity.
Qed.

Lemma SV_update_cases (p : PolicyT) :
  SingleViewBaseline_update compute_grasps p
  = match last_depth_img p, last_extrinsic p with
    | None, _ => (Raise (AttributeError "last_depth_img"), p)
    | Some _, None => (Raise (AttributeError "last_extrinsic"), p)
    | Some img, Some ext =>
        let q := set_tsdf ((img, intrinsic p, ext) :: tsdf p) p in
        match compute_grasps (tsdf q) with
        | [] => (Raise IndexError, q)
        | g :: _ =>
            (Ok tt,
             set_done true
               (set_best_grasp
                  (H_B_T q ** pose (point_forward g) ** inv (H_EE_G q)) q))
        end
    end.
Proof.
  unfold SingleViewBaseline_update, bind. rewrite integrate_image_cases.
  destruct (last_depth_img p) as [img |]; [| reflexivity].
  destruct (last_extrinsic p) as [ext |]; [| reflexivity].
  unfold plan_best_grasp, setattr. cbn zeta.
  destruct (compute_grasps _) as [| g others]; reflexivity.
Qed.

Lemma inherited_eq {A} (f : M PolicyT A) (s : ScanT) :
  inherited f s = (fst (f (base s)), set_base (snd (f (base s))) s).
Proof. unfold inherited. destruct (f (base s)); reflexivity. Qed.

Lemma FT_update_cases (s : ScanT) (now : R) :
  FixedTrajectoryBaseline_update compute_grasps now s
  = match tic s with
    | None => (Raise (AttributeError "tic"), s)
    | Some t0 =>
      match last_depth_img (base s), last_extrinsic (base s) with
      | None, _ => (Raise (AttributeError "last_depth_img"), s)
      | Some _, None => (Raise (AttributeError "last_extrinsic"), s)
      | Some img, Some ext =>
        let q := set_tsdf ((img, intrinsic (base s), ext) :: tsdf (base s))
                          (base s) in
        if Rgt_dec (now - t0) (duration s) then
          match compute_grasps (tsdf q) with
          | [] => (Raise IndexError, set_base q s)
          | g :: _ =>
              (Ok tt,
               set_base
                 (set_done true
                    (set_best_grasp
                       (H_B_T q ** pose (point_forward g) ** inv (H_EE_G q))
                       q))
                 s)
          end
        else
          match interp1d_call (m s) (now - t0) with
          | Raise e => (Raise e, set_base q s)
          | Ok t =>
            match origin s, target s with
            | None, _ => (Raise (AttributeError "origin"), set_base q s)
            | Some _, None =>
                (Raise (AttributeError "target"), set_base q s)
            | Some c, Some x =>
                let x' := set_translation x
                            (vadd c (mkVec3 (radius s * cos t)
                                            (radius s * sin t) 0)) in
                (Ok tt,
                 mkFixedTrajectoryBaseline (publish x' q) (duration s)
                   (radius s) (m s) (tic s) (origin s) (Some x'))
            end
          end
      end
    end.
Proof.
  destruct s as [p D r f tc o tg].
  unfold FixedTrajectoryBaseline_update, bind, getattr.
  cbn [tic]. destruct tc as [t0 |]; [| reflexivity].
  rewrite inherited_eq, integrate_image_cases.
  cbn [base]. 
  destruct (last_depth_img p) as [img |];
    [| cbn [fst snd]; unfold set_base; reflexivity].
  destruct (last_extrinsic p) as [ext |];
    [| cbn [fst snd]; unfold set_base; reflexivity].
  cbn [fst snd]. unfold gets, set_base. cbn [base duration radius m tic origin target].
  destruct (Rgt_dec (now - t0) D).
  - rewrite inherited_eq. unfold plan_best_grasp. cbn [base fst snd].
    destruct (compute_grasps _) as [| g others]; reflexivity.
  - unfold call, setattr. cbn [m].
    destruct (interp1d_call f (now - t0)); [| reflexivity].
    cbn [origin]. destruct o; [| reflexivity].
    cbn [target]. destruct tg; reflexivity.
Qed.

Lemma FT_start_cases (s : ScanT) (now : R) (lookup : result Transform) :
  FixedTrajectoryBaseline_start now lookup s
  = match lookup with
    | Raise e => (Raise e, set_tic now s)
    | Ok x0 =>
        (Ok tt,
         mkFixedTrajectoryBaseline (set_done false (base s)) (duration s)
           (radius s) (m s) (Some now)
           (Some (mkVec3 (vx (translation x0) + radius s)
                         (vy (translation x0)) (vz (translation x0))))
           (Some x0))
    end.
Proof.
  destruct s as [p D r f tc o tg]. destruct lookup; reflexivity.
Qed.

End MethodEquations.

(** ** Sensor messages, failures and what they leave behind *)

Section Failures.

Context {Image Intrinsic : Type}.
Variable compute_grasps : TSDF Image Intrinsic -> list Grasp.

Local Abbreviation PolicyT := (Policy Image Intrinsic).
Local Abbreviation ScanT := (FixedTrajectoryBaseline Image Intrinsic).
Local Abbreviation SV_upd := (SingleViewBaseline_update compute_grasps).
Local Abbreviation FT_upd := (FixedTrajectoryBaseline_update compute_grasps).

(** X1.  When the extrinsic lookup of a sensor callback fails, the callback
    raises the lookup's exception after it has stored the new image: the
    new image is then paired with the extrinsic of an earlier message, and
    that pair is what the next [update] integrates. *)
Theorem sensor_cb_failed_lookup_pairs_new_image_with_old_extrinsic :
  forall (p : PolicyT) (img : Image) (e : exn) (old : Transform),
    last_extrinsic p = Some old ->
    let p' := snd (sensor_cb img (Raise e) p) in
    fst (sensor_cb img (Raise e) p) = Raise e
    /\ last_depth_img p' = Some img
    /\ last_extrinsic p' = Some old
    /\ tsdf (snd (SV_upd p')) = (img, intrinsic p, old) :: tsdf p.
Proof.
  intros p img e old H p'. subst p'.
  unfold sensor_cb, bind, setattr, call. cbn [fst snd].
  repeat split; try assumption.
  rewrite SV_update_cases. cbn [set_last_depth_img last_depth_img
                                  last_extrinsic intrinsic tsdf].
  rewrite H. cbn zeta. destruct (compute_grasps _); reflexivity.
Qed.

(** X2.  A sensor callback whose lookup succeeds overwrites what earlier
    callbacks stored, whether they succeeded or failed: the object is the
    same as if only the last message had arrived, and the next [update]
    integrates the last image with the last extrinsic. *)
Theorem sensor_cb_last_write_wins :
  forall (p : PolicyT) (img1 img2 : Image) (lookup1 : result Transform)
         (ext2 : Transform),
    snd (sensor_cb img2 (Ok ext2) (snd (sensor_cb img1 lookup1 p)))
    = snd (sensor_cb img2 (Ok ext2) p)
    /\ tsdf (snd (SV_upd (snd (sensor_cb img2 (Ok ext2)
                                 (snd (sensor_cb img1 lookup1 p))))))
       = (img2, intrinsic p, ext2) :: tsdf p.
Proof.
  intros p img1 img2 lookup1 ext2.
  assert (E : snd (sensor_cb img2 (Ok ext2) (snd (sensor_cb img1 lookup1 p)))
              = snd (sensor_cb img2 (Ok ext2) p))
    by (destruct p, lookup1; reflexivity).
  split; [exact E |]. rewrite E, SV_update_cases.
  unfold sensor_cb, bind, setattr, call.
  cbn [snd set_last_depth_img set_last_extrinsic last_depth_img
       last_extrinsic intrinsic tsdf].
  cbn zeta. destruct (compute_grasps _); reflexivity.
Qed.

(** X3.  A single-view [update] with a sample and a candidate integrates
    the sample first and plans from the volume that contains it: the stored
    grasp comes from the first candidate extracted from the updated volume,
    [done] becomes true, and nothing is published. *)
Theorem SingleView_update_plans_from_updated_volume :
  forall (p : PolicyT) (img : Image) (ext : Transform) (g : Grasp)
         (others : list Grasp),
    last_depth_img p = Some img ->
    last_extrinsic p = Some ext ->
    compute_grasps ((img, intrinsic p, ext) :: tsdf p) = g :: others ->
    let p' := snd (SV_upd p) in
    fst (SV_upd p) = Ok tt
    /\ tsdf p' = (img, intrinsic p, ext) :: tsdf p
    /\ best_grasp p'
       = Some (H_B_T p ** pose (point_forward g) ** inv (H_EE_G p))
    /\ done p' = Some true
    /\ target_pose_pub p' = target_pose_pub p
    /\ last_depth_img p' = Some img
    /\ last_extrinsic p' = Some ext.
Proof.
  intros p img ext g others Hi He Hg p'. subst p'.
  rewrite SV_update_cases, Hi, He. cbn zeta. cbn [tsdf set_tsdf].
  rewrite Hg. cbn. repeat split; assumption.
Qed.

(** X4.  When the extractor finds no candidate, [update] raises
    [IndexError] after the sample has gone into the volume: the volume has
    grown by the sample while [done], [best_grasp] and everything else are
    as before.  This holds for the single-view update and for the
    fixed-trajectory update past the scan duration. *)
Theorem update_without_candidates_still_integrates :
  (forall (p : PolicyT) (img : Image) (ext : Transform),
      last_depth_img p = Some img ->
      last_extrinsic p = Some ext ->
      compute_grasps ((img, intrinsic p, ext) :: tsdf p) = [] ->
      SV_upd p
      = (Raise IndexError, set_tsdf ((img, intrinsic p, ext) :: tsdf p) p))
  /\ (forall (s : ScanT) (now t0 : R) (img : Image) (ext : Transform),
        tic s = Some t0 ->
        last_depth_img (base s) = Some img ->
        last_extrinsic (base s) = Some ext ->
        now - t0 > duration s ->
        compute_grasps ((img, intrinsic (base s), ext) :: tsdf (base s))
        = [] ->
        FT_upd now s
        = (Raise IndexError,
           set_base (set_tsdf ((img, intrinsic (base s), ext)
                                 :: tsdf (base s)) (base s)) s)).
Proof.
  split.
  - intros p img ext Hi He Hg.
    rewrite SV_update_cases, Hi, He. cbn zeta. cbn [tsdf set_tsdf].
    rewrite Hg. reflexivity.
  - intros s now t0 img ext Ht Hi He Hel Hg.
    rewrite FT_update_cases, Ht, Hi, He. cbn zeta.
    destruct (Rgt_dec (now - t0) (duration s)) as [_ | n];
      [| contradiction].
    cbn [tsdf set_tsdf]. rewrite Hg. reflexivity.
Qed.

(** X5.  With an image stored but no extrinsic ever assigned, which is the
    state after a first sensor callback whose lookup failed, [update] of
    either strategy raises [AttributeError] for [last_extrinsic] and
    integrates nothing. *)
Theorem update_without_extrinsic_raises_AttributeError :
  (forall (p : PolicyT) (img : Image),
      last_depth_img p = Some img ->
      last_extrinsic p = None ->
      SV_upd p = (Raise (AttributeError "last_extrinsic"), p))
  /\ (forall (s : ScanT) (now t0 : R) (img : Image),
        tic s = Some t0 ->
        last_depth_img (base s) = Some img ->
        last_extrinsic (base s) = None ->
        FT_upd now s = (Raise (AttributeError "last_extrinsic"), s))
  /\ (forall (p : PolicyT) (img : Image) (e : exn),
        last_extrinsic p = None ->
        SV_upd (snd (sensor_cb img (Raise e) p))
        = (Raise (AttributeError "last_extrinsic"),
           snd (sensor_cb img (Raise e) p))).
Proof.
  repeat apply conj.
  - intros p img Hi He. rewrite SV_update_cases, Hi, He. reflexivity.
  - intros s now t0 img Ht Hi He.
    rewrite FT_update_cases, Ht, Hi, He. reflexivity.
  - intros p img e He. rewrite SV_update_cases.
    unfold sensor_cb, bind, setattr, call.
    cbn [snd set_last_depth_img last_depth_img last_extrinsic].
    rewrite He. reflexivity.
Qed.

(** X6.  When the pose lookup of [start] fails, [start] raises the lookup's
    exception having only restarted the clock: [tic] is the new time, while
    [origin], [target], [done] and the rest of the object are those of
    before.  On an object that had never been started, an [update] within
    the scan duration then integrates the sample and raises
    [AttributeError] for [origin]. *)
Theorem start_failed_lookup_only_restarts_clock :
  (forall (s : ScanT) (now : R) (e : exn),
      let s' := snd (FixedTrajectoryBaseline_start now (Raise e) s) in
      fst (FixedTrajectoryBaseline_start now (Raise e) s) = Raise e
      /\ tic s' = Some now
      /\ origin s' = origin s /\ target s' = target s
      /\ base s' = base s)
  /\ (forall (s : ScanT) (now now' : R) (e : exn) (img : Image)
             (ext : Transform),
        origin s = None ->
        last_depth_img (base s) = Some img ->
        last_extrinsic (base s) = Some ext ->
        m s = mkInterp1d 0 (duration s) PI (3.0 * PI) ->
        0 < duration s ->
        0 <= now' - now <= duration s ->
        let s' := snd (FixedTrajectoryBaseline_start now (Raise e) s) in
        FT_upd now' s'
        = (Raise (AttributeError "origin"),
           set_base (set_tsdf ((img, intrinsic (base s), ext)
                                 :: tsdf (base s)) (base s)) s')).
Proof.
  split.
  - intros s now e s'. subst s'. rewrite FT_start_cases.
    destruct s; repeat split.
  - intros s now now' e img ext Ho Hi He Hm HD Hel s'. subst s'.
    rewrite FT_start_cases. cbn [snd]. rewrite FT_update_cases.
    destruct s as [p D r f tc o tg].
    cbn [set_tic tic base duration radius m origin target] in *.
    subst o f. rewrite Hi, He. cbn zeta.
    destruct (Rgt_dec (now' - now) D) as [l | _]; [lra |].
    rewrite (interp1d_angle D (now' - now) HD Hel). reflexivity.
Qed.

(** X7.  An [update] whose clock reading lies before [tic] is outside the
    interpolator's range: it integrates the sample and then raises the
    interpolator's [ValueError]; nothing is published and the target is
    as before. *)
Theorem update_before_tic_raises_ValueError :
  forall (s : ScanT) (now t0 : R) (img : Image) (ext : Transform),
    tic s = Some t0 ->
    last_depth_img (base s) = Some img ->
    last_extrinsic (base s) = Some ext ->
    m s = mkInterp1d 0 (duration s) PI (3.0 * PI) ->
    0 <= duration s ->
    now - t0 < 0 ->
    FT_upd now s
    = (Raise (LibraryError "ValueError"),
       set_base (set_tsdf ((img, intrinsic (base s), ext)
                             :: tsdf (base s)) (base s)) s).
Proof.
  intros s now t0 img ext Ht Hi He Hm HD Hel.
  rewrite FT_update_cases, Ht, Hi, He. cbn zeta.
  destruct (Rgt_dec (now - t0) (duration s)) as [l | _]; [lra |].
  rewrite Hm. unfold interp1d_call. cbn [x_lo x_hi y_lo y_hi].
  destruct (Rlt_dec (now - t0) 0) as [_ | n]; [reflexivity | lra].
Qed.

(** X8.  An object that [get_policy] has just constructed cannot be
    updated yet.  The single-view object has an empty volume and raises
    [AttributeError] for [last_depth_img]; the fixed-trajectory object
    raises [AttributeError] for [tic], which [update] reads before anything
    else, and after a [start] raises it for [last_depth_img].  When the
    base-to-task lookup of construction fails, [get_policy] raises the
    lookup's exception for both names. *)
Theorem fresh_policy_cannot_update :
  forall env : Startup Intrinsic,
    (forall H : Transform,
        lookup_base_task env = Ok H ->
        (exists p : PolicyT,
            get_policy env "single-view" = Ok (SingleView p)
            /\ tsdf p = [] /\ done p = None /\ H_B_T p = H
            /\ SV_upd p = (Raise (AttributeError "last_depth_img"), p))
        /\ (exists s : ScanT,
              get_policy env "fixed-trajectory" = Ok (FixedTrajectory s)
              /\ (forall now, FT_upd now s
                              = (Raise (AttributeError "tic"), s))
              /\ (forall now now' x0,
                    let s' := snd (FixedTrajectoryBaseline_start
                                     now (Ok x0) s) in
                    FT_upd now' s'
                    = (Raise (AttributeError "last_depth_img"), s'))))
    /\ (forall e : exn,
          lookup_base_task env = Raise e ->
          @get_policy Image _ env "single-view" = Raise e
          /\ @get_policy Image _ env "fixed-trajectory" = Raise e)
    /\ (forall (s : ScanT) (now : R),
          tic s = None -> FT_upd now s = (Raise (AttributeError "tic"), s)).
Proof.
  intros env. repeat apply conj.
  - intros H E. split.
    + eexists. unfold get_policy, SingleViewBaseline_new, Policy_init.
      cbn [String.eqb Ascii.eqb Bool.eqb]. rewrite E.
      split; [reflexivity |]. repeat split.
    + eexists. unfold get_policy, FixedTrajectoryBaseline_new, Policy_init.
      cbn [String.eqb Ascii.eqb Bool.eqb]. rewrite E.
      split; [reflexivity |]. split.
      * intros now. rewrite FT_update_cases. reflexivity.
      * intros now now' x0.
        rewrite FT_start_cases. cbn [snd]. rewrite FT_update_cases.
        reflexivity.
  - intros e E. unfold get_policy, SingleViewBaseline_new,
      FixedTrajectoryBaseline_new, Policy_init.
    cbn [String.eqb Ascii.eqb Bool.eqb]. rewrite E. split; reflexivity.
  - intros s now H. rewrite FT_update_cases, H. reflexivity.
Qed.

End Failures.

(** ** The scan circle *)

Section Circle.

Context {Image Intrinsic : Type}.
Variable compute_grasps : TSDF Image Intrinsic -> list Grasp.

Local Abbreviation ScanT := (FixedTrajectoryBaseline Image Intrinsic).
Local Abbreviation FT_upd := (FixedTrajectoryBaseline_update compute_grasps).

Lemma circle_point (c : Vec3) (r a : R) :
  on_circle c r (vadd c (mkVec3 (r * cos a) (r * sin a) 0)).
Proof.
  unfold on_circle. cbn [vadd vx vy vz]. split; [| ring].
  replace ((vx c + r * cos a - vx c) * (vx c + r * cos a - vx c)
           + (vy c + r * sin a - vy c) * (vy c + r * sin a - vy c))
    with (r * r * ((sin a)² + (cos a)²)) by (unfold Rsqr; ring).
  rewrite sin2_cos2. ring.
Qed.

(** X9.  While the elapsed time is within [[0, duration]], [update]
    publishes exactly one pose: it has the rotation of the current target,
    it becomes the new target, and its translation lies on the horizontal
    circle of radius [radius] about [origin]. *)
Theorem published_pose_lies_on_scan_circle :
  forall (s : ScanT) (now t0 : R) (img : Image) (ext x : Transform)
         (c : Vec3),
    tic s = Some t0 ->
    last_depth_img (base s) = Some img ->
    last_extrinsic (base s) = Some ext ->
    origin s = Some c ->
    target s = Some x ->
    m s = mkInterp1d 0 (duration s) PI (3.0 * PI) ->
    0 < duration s ->
    0 <= now - t0 <= duration s ->
    exists msg : Transform,
      fst (FT_upd now s) = Ok tt
      /\ target_pose_pub (base (snd (FT_upd now s)))
         = msg :: target_pose_pub (base s)
      /\ target (snd (FT_upd now s)) = Some msg
      /\ rotation msg = rotation x
      /\ on_circle c (radius s) (translation msg).
Proof.
  intros s now t0 img ext x c Ht Hi He Ho Hx Hm HD Hel.
  rewrite (FT_update_motion compute_grasps s now t0 img ext c x)
    by assumption.
  eexists. cbn [fst snd base target].
  repeat (split; [reflexivity |]). apply circle_point.
Qed.

(** X10.  The scan is a closed path through the pose it was started at.
    After [start] at the end-effector pose [x0], the update at elapsed time
    0 and the update at elapsed time [duration] both publish [x0] itself,
    and the update at half the duration publishes [x0] moved by twice the
    radius along x. *)
Theorem scan_starts_and_ends_at_start_pose :
  forall (s : ScanT) (now : R) (img : Image) (ext x0 : Transform),
    last_depth_img (base s) = Some img ->
    last_extrinsic (base s) = Some ext ->
    m s = mkInterp1d 0 (duration s) PI (3.0 * PI) ->
    0 < duration s ->
    let s1 := snd (FixedTrajectoryBaseline_start now (Ok x0) s) in
    target_pose_pub (base (snd (FT_upd (now + 0) s1)))
    = x0 :: target_pose_pub (base s)
    /\ target_pose_pub (base (snd (FT_upd (now + duration s) s1)))
       = x0 :: target_pose_pub (base s)
    /\ target_pose_pub (base (snd (FT_upd (now + duration s / 2) s1)))
       = set_translation x0
           (vadd (translation x0) (mkVec3 (2 * radius s) 0 0))
         :: target_pose_pub (base s).
Proof.
  intros s now img ext x0 Hi He Hm HD s1. subst s1.
  rewrite FT_start_cases. cbn [snd].
  set (c := mkVec3 (vx (translation x0) + radius s) (vy (translation x0))
                   (vz (translation x0))).
  assert (Hmove : forall t, 0 <= t <= duration s ->
            target_pose_pub
              (base (snd (FT_upd (now + t)
                 (mkFixedTrajectoryBaseline (set_done false (base s))
                    (duration s) (radius s) (m s) (Some now) (Some c)
                    (Some x0)))))
            = set_translation x0
                (vadd c (mkVec3
                           (radius s * cos (PI + t / duration s * (2 * PI)))
                           (radius s * sin (PI + t / duration s * (2 * PI)))
                           0))
              :: target_pose_pub (base s)).
  { intros t Ht.
    rewrite (FT_update_motion compute_grasps _ (now + t) now img ext c x0);
      cbn [base duration radius m tic origin target];
      try assumption; try reflexivity.
    - replace (now + t - now) with t by ring. reflexivity.
    - replace (now + t - now) with t by ring. exact Ht. }
  destruct x0 as [rot [x y z]].
  cbn [translation vx vy vz] in *.
  repeat apply conj.
  - rewrite Hmove by lra. f_equal.
    replace (PI + 0 / duration s * (2 * PI)) with PI by (field; lra).
    rewrite cos_PI, sin_PI. subst c. unfold set_translation, vadd.
    cbn [rotation vx vy vz]. f_equal. apply Vec3_eq; cbn [vx vy vz]; ring.
  - rewrite Hmove by lra. f_equal.
    replace (PI + duration s / duration s * (2 * PI)) with (PI + 2 * PI)
      by (field; lra).
    rewrite cos_plus, sin_plus, cos_PI, sin_PI, cos_2PI, sin_2PI.
    subst c. unfold set_translation, vadd.
    cbn [rotation vx vy vz]. f_equal. apply Vec3_eq; cbn [vx vy vz]; ring.
  - rewrite Hmove by lra. f_equal.
    replace (PI + duration s / 2 / duration s * (2 * PI)) with (2 * PI)
      by (field; lra).
    rewrite cos_2PI, sin_2PI. subst c. unfold set_translation, vadd.
    cbn [rotation translation vx vy vz]. f_equal.
    apply Vec3_eq; cbn [vx vy vz]; ring.
Qed.

End Circle.


(** ** What holds along every sequence of calls *)

Lemma fold_left_related {S C} (R : S -> S -> Prop) (exec : C -> S -> S) :
  (forall s, R s s) ->
  (forall a b c, R a b -> R b c -> R a c) ->
  forall ok : C -> bool,
    (forall c s, ok c = true -> R s (exec c s)) ->
    forall cs s,
      forallb ok cs = true ->
      R s (fold_left (fun q c => exec c q) cs s).
Proof.
  intros Hrefl Htrans ok Hstep cs.
  induction cs as [| c cs IH]; intros s H; cbn [fold_left].
  - apply Hrefl.
  - cbn [forallb] in H. apply andb_prop in H as [Hc Hcs].
    eapply Htrans; [apply (Hstep c s Hc) | apply IH, Hcs].
Qed.

Lemma forallb_always {C} (cs : list C) : forallb (fun _ => true) cs = true.
Proof. induction cs; [reflexivity | assumption]. Qed.

Lemma unchanged_refl {S A} (field : S -> A) s : unchanged field s s.
Proof. reflexivity. Qed.

Lemma unchanged_trans {S A} (field : S -> A) a b c :
  unchanged field a b -> unchanged field b c -> unchanged field a c.
Proof. unfold unchanged. congruence. Qed.

Ltac break_match :=
  repeat (cbn zeta;
          match goal with
          | |- context [match ?x with _ => _ end] => destruct x
          end).

Section Runs.

Context {Image Intrinsic : Type}.
Variable compute_grasps : TSDF Image Intrinsic -> list Grasp.

Local Abbreviation PolicyT := (Policy Image Intrinsic).
Local Abbreviation ScanT := (FixedTrajectoryBaseline Image Intrinsic).
Local Abbreviation SV_upd := (SingleViewBaseline_update compute_grasps).
Local Abbreviation FT_upd := (FixedTrajectoryBaseline_update compute_grasps).
Local Abbreviation SV_step := (SV_exec compute_grasps).
Local Abbreviation FT_step := (FT_exec compute_grasps).

Ltac sv_call c p :=
  destruct c as [| | ? [? | ?]]; cbn [SV_exec];
  [ unfold SingleViewBaseline_start, setattr
  | rewrite SV_update_cases; break_match
  | unfold sensor_cb, bind, setattr, call
  | unfold sensor_cb, bind, setattr, call ];
  cbn [snd].

Ltac ft_call c s :=
  destruct c as [? ? | ? | ? [? | ?]]; cbn [FT_exec];
  [ rewrite FT_start_cases; break_match
  | rewrite FT_update_cases; break_match
  | rewrite inherited_eq; unfold sensor_cb, bind, setattr, call
  | rewrite inherited_eq; unfold sensor_cb, bind, setattr, call ];
  cbn [snd].

(** X12.  No call changes what construction fixed: along every sequence
    of [start], [update] and sensor callbacks the cached base transform,
    the grasp offset and the camera intrinsics stay the same, and for the
    fixed-trajectory policy so do the duration, the radius and the
    interpolator. *)
Theorem calls_keep_configuration :
  (forall (cs : list (SingleViewCall Image)) (p : PolicyT),
      let p' := SV_run compute_grasps cs p in
      H_B_T p' = H_B_T p /\ H_EE_G p' = H_EE_G p
      /\ intrinsic p' = intrinsic p)
  /\ (forall (cs : list (FixedTrajectoryCall Image)) (s : ScanT),
        let s' := FT_run compute_grasps cs s in
        H_B_T (base s') = H_B_T (base s)
        /\ H_EE_G (base s') = H_EE_G (base s)
        /\ intrinsic (base s') = intrinsic (base s)
        /\ duration s' = duration s /\ radius s' = radius s
        /\ m s' = m s).
Proof.
  split.
  - intros cs p p'. subst p'.
    assert (H : unchanged (fun q : PolicyT => (H_B_T q, H_EE_G q, intrinsic q))
                  p (SV_run compute_grasps cs p)).
    { apply (fold_left_related _ SV_step (unchanged_refl _)
               (unchanged_trans _) (fun _ => true));
        [| apply forallb_always].
      intros c q _. unfold unchanged. sv_call c q; reflexivity. }
    unfold unchanged in H. injection H as -> -> ->. repeat split.
  - intros cs s s'. subst s'.
    assert (H : unchanged (fun q : ScanT =>
                             (H_B_T (base q), H_EE_G (base q),
                              intrinsic (base q), duration q, radius q, m q))
                  s (FT_run compute_grasps cs s)).
    { apply (fold_left_related _ FT_step (unchanged_refl _)
               (unchanged_trans _) (fun _ => true));
        [| apply forallb_always].
      intros c q _. unfold unchanged. destruct q.
      ft_call c q; reflexivity. }
    unfold unchanged in H. injection H as -> -> -> -> -> ->. repeat split.
Qed.


(** X13.  Poses are published by scanning updates only.  No single-view
    call publishes, nor does the fixed-trajectory [start].  A
    fixed-trajectory [update] publishes at most one pose, and when it does
    it has returned normally, the pose is the stored target, and [done] and
    [best_grasp] are as before: an update that raises or plans publishes
    nothing. *)
Theorem only_scanning_updates_publish :
  (forall (cs : list (SingleViewCall Image)) (p : PolicyT),
      target_pose_pub (SV_run compute_grasps cs p) = target_pose_pub p)
  /\ (forall (s : ScanT) (now : R) (lookup : result Transform),
        target_pose_pub
          (base (snd (FixedTrajectoryBaseline_start now lookup s)))
        = target_pose_pub (base s))
  /\ (forall (s : ScanT) (now : R),
        target_pose_pub (base (snd (FT_upd now s)))
        = target_pose_pub (base s)
        \/ exists msg : Transform,
             target_pose_pub (base (snd (FT_upd now s)))
             = msg :: target_pose_pub (base s)
             /\ fst (FT_upd now s) = Ok tt
             /\ target (snd (FT_upd now s)) = Some msg
             /\ done (base (snd (FT_upd now s))) = done (base s)
             /\ best_grasp (base (snd (FT_upd now s)))
                = best_grasp (base s)).
Proof.
  repeat apply conj.
  - intros cs p.
    apply (fold_left_related (unchanged (@target_pose_pub Image Intrinsic))
             SV_step (unchanged_refl _) (unchanged_trans _)
             (fun _ => true));
      [| apply forallb_always].
    intros c q _. unfold unchanged. sv_call c q; reflexivity.
  - intros s now lookup. rewrite FT_start_cases.
    destruct s, lookup; reflexivity.
  - intros s now. rewrite FT_update_cases. destruct s.
    break_match; cbn [fst snd base set_base];
      try (left; reflexivity).
    right. eexists. repeat split.
Qed.

Lemma tsdf_extends_refl (p : PolicyT) : tsdf_extends p p.
Proof. exists []. reflexivity. Qed.

Lemma tsdf_extends_trans (a b c : PolicyT) :
  tsdf_extends a b -> tsdf_extends b c -> tsdf_extends a c.
Proof.
  intros [n1 H1] [n2 H2]. exists (n2 ++ n1).
  rewrite H2, H1. apply app_assoc.
Qed.

Ltac grows :=
  unfold tsdf_extends; simpl;
  first [ exists []; reflexivity | eexists [_]; reflexivity ].

(** X14.  The volume only grows.  Along every sequence of calls, for
    either strategy, the samples integrated before are still in the volume
    afterwards, below whatever was added: [start] does not clear the volume,
    so a restarted episode plans on the samples of the episodes before
    it. *)
Theorem volume_only_grows :
  (forall (cs : list (SingleViewCall Image)) (p : PolicyT),
      exists new, tsdf (SV_run compute_grasps cs p) = new ++ tsdf p)
  /\ (forall (cs : list (FixedTrajectoryCall Image)) (s : ScanT),
        exists new,
          tsdf (base (FT_run compute_grasps cs s)) = new ++ tsdf (base s)).
Proof.
  split.
  - intros cs p.
    apply (fold_left_related tsdf_extends SV_step tsdf_extends_refl
             tsdf_extends_trans (fun _ => true));
      [| apply forallb_always].
    intros c q _. sv_call c q; grows.
  - intros cs s.
    apply (fold_left_related
             (fun a b : ScanT => tsdf_extends (base a) (base b)) FT_step
             (fun a => tsdf_extends_refl (base a))
             (fun a b c => tsdf_extends_trans (base a) (base b) (base c))
             (fun _ => true));
      [| apply forallb_always].
    intros c q _. destruct q. ft_call c q; grows.
Qed.

Lemma best_grasp_kept_refl (p : PolicyT) : best_grasp_kept p p.
Proof. intros H. exact H. Qed.

Lemma best_grasp_kept_trans (a b c : PolicyT) :
  best_grasp_kept a b -> best_grasp_kept b c -> best_grasp_kept a c.
Proof. unfold best_grasp_kept. auto. Qed.

Ltac kept := simpl; intros ?; first [assumption | discriminate].

(** X15.  Bookkeeping of the planned grasp, along every sequence of calls
    of either strategy.  A stored [best_grasp] is never cleared, not even
    by [start], so after a restart the grasp of the previous episode is
    still stored while [done] is false.  And if [done] being true implies
    that a grasp is stored, as it does on a newly constructed object, then
    it does so after the calls. *)
Theorem planned_grasp_bookkeeping :
  (forall (cs : list (SingleViewCall Image)) (p : PolicyT),
      (best_grasp p <> None ->
       best_grasp (SV_run compute_grasps cs p) <> None)
      /\ (planned_when_done p ->
          planned_when_done (SV_run compute_grasps cs p)))
  /\ (forall (cs : list (FixedTrajectoryCall Image)) (s : ScanT),
        (best_grasp (base s) <> None ->
         best_grasp (base (FT_run compute_grasps cs s)) <> None)
        /\ (planned_when_done (base s) ->
            planned_when_done (base (FT_run compute_grasps cs s)))).
Proof.
  split.
  - intros cs p. split.
    + apply (fold_left_related best_grasp_kept SV_step best_grasp_kept_refl
               best_grasp_kept_trans (fun _ => true));
        [| apply forallb_always].
      intros c q _. unfold best_grasp_kept. sv_call c q; kept.
    + apply (fold_left_related
               (fun a b : PolicyT =>
                  planned_when_done a -> planned_when_done b)
               SV_step (fun a H => H) (fun a b c H1 H2 H => H2 (H1 H))
               (fun _ => true));
        [| apply forallb_always].
      intros c q _. unfold planned_when_done. sv_call c q; simpl; intros H K;
        first [discriminate | apply H; assumption].
  - intros cs s. split.
    + apply (fold_left_related
               (fun a b : ScanT => best_grasp_kept (base a) (base b))
               FT_step (fun a => best_grasp_kept_refl (base a))
               (fun a b c =>
                  best_grasp_kept_trans (base a) (base b) (base c))
               (fun _ => true));
        [| apply forallb_always].
      intros c q _. unfold best_grasp_kept. destruct q. ft_call c q; kept.
    + apply (fold_left_related
               (fun a b : ScanT =>
                  planned_when_done (base a) -> planned_when_done (base b))
               FT_step (fun a H => H) (fun a b c H1 H2 H => H2 (H1 H))
               (fun _ => true));
        [| apply forallb_always].
      intros c q _. unfold planned_when_done. destruct q.
      ft_call c q; simpl; intros H K;
        first [discriminate | apply H; assumption].
Qed.

Lemma scan_frame_refl (s : ScanT) : scan_frame s s.
Proof. unfold scan_frame. repeat split. Qed.

Lemma scan_frame_trans (a b c : ScanT) :
  scan_frame a b -> scan_frame b c -> scan_frame a c.
Proof.
  unfold scan_frame.
  intros (? & ? & ? & ? & ? & ?) (? & ? & ? & ? & ? & ?).
  repeat split; congruence.
Qed.

(** X16.  Between two [start]s the scan is fixed: along every sequence of
    fixed-trajectory [update]s and sensor callbacks, [tic], [origin],
    [duration], [radius] and the interpolator stay the same, and the
    target keeps its rotation: only its translation is ever reassigned. *)
Theorem updates_keep_scan_frame :
  forall (cs : list (FixedTrajectoryCall Image)) (s : ScanT),
    forallb (fun c => negb (FT_is_start c)) cs = true ->
    let s' := FT_run compute_grasps cs s in
    tic s' = tic s /\ origin s' = origin s
    /\ duration s' = duration s /\ radius s' = radius s /\ m s' = m s
    /\ option_map rotation (target s') = option_map rotation (target s).
Proof.
  intros cs s H.
  apply (fold_left_related scan_frame FT_step scan_frame_refl
           scan_frame_trans (fun c => negb (FT_is_start c)));
    [| exact H].
  intros c q Hc. unfold scan_frame. destruct q.
  destruct c as [? ? | ? | ? ?]; cbn [FT_is_start negb] in Hc;
    [discriminate | |]; cbn [FT_exec].
  - rewrite FT_update_cases.
    cbn [base duration radius m tic origin target].
    break_match; simpl; repeat split.
  - rewrite inherited_eq. simpl. repeat split.
Qed.

End Runs.

(** ** How often samples are integrated and poses published *)

Section Counting.

Context {Image Intrinsic : Type}.
Variable compute_grasps : TSDF Image Intrinsic -> list Grasp.

Local Abbreviation PolicyT := (Policy Image Intrinsic).
Local Abbreviation ScanT := (FixedTrajectoryBaseline Image Intrinsic).

Lemma repeat_app_cons {A} (a : A) (n : nat) (l : list A) :
  repeat a n ++ a :: l = repeat a (S n) ++ l.
Proof.
  cbn [repeat]. rewrite repeat_cons, <- app_assoc. reflexivity.
Qed.

Lemma FT_run_cons (c : FixedTrajectoryCall Image) cs (s : ScanT) :
  FT_run compute_grasps (c :: cs) s
  = FT_run compute_grasps cs (FT_exec compute_grasps c s).
Proof. reflexivity. Qed.

Lemma SV_run_cons (c : SingleViewCall Image) cs (p : PolicyT) :
  SV_run compute_grasps (c :: cs) p
  = SV_run compute_grasps cs (SV_exec compute_grasps c p).
Proof. reflexivity. Qed.

(** X17.  While the clock stays within the scan duration, every
    fixed-trajectory [update] integrates the current sample once and
    publishes one pose: after any number of such updates the volume holds
    one more copy of the sample per update, as many poses have been
    published, each with the rotation of the start target and on the
    circle about [origin], and [done] and [best_grasp] are as before. *)
Theorem scanning_updates_integrate_and_publish_once_each :
  forall (times : list R) (s : ScanT) (t0 : R) (img : Image)
         (ext x : Transform) (c : Vec3),
    tic s = Some t0 ->
    last_depth_img (base s) = Some img ->
    last_extrinsic (base s) = Some ext ->
    origin s = Some c ->
    target s = Some x ->
    m s = mkInterp1d 0 (duration s) PI (3.0 * PI) ->
    0 < duration s ->
    Forall (fun now => 0 <= now - t0 <= duration s) times ->
    let s' := FT_run compute_grasps (map (@FT_update Image) times) s in
    done (base s') = done (base s)
    /\ best_grasp (base s') = best_grasp (base s)
    /\ tsdf (base s')
       = repeat (img, intrinsic (base s), ext) (List.length times)
         ++ tsdf (base s)
    /\ exists msgs : list Transform,
         target_pose_pub (base s') = msgs ++ target_pose_pub (base s)
         /\ List.length msgs = List.length times
         /\ Forall (fun msg => rotation msg = rotation x
                               /\ on_circle c (radius s) (translation msg))
                   msgs.
Proof.
  induction times as [| now times IH];
    intros s t0 img ext x c Ht Hi He Ho Hx Hm HD Hall.
  - cbn. repeat split. exists []. repeat split. constructor.
  - inversion Hall as [| ? ? Hnow Hrest]; subst.
    cbn [map]. rewrite FT_run_cons. cbn [FT_exec].
    rewrite (FT_update_motion compute_grasps s now t0 img ext c x)
      by assumption.
    cbn [snd].
    match goal with
    | |- context [FT_run _ _ ?s1] =>
        specialize (IH s1 t0 img ext
                      (set_translation x
                         (vadd c (mkVec3
                            (radius s * cos (PI + (now - t0) / duration s
                                                  * (2 * PI)))
                            (radius s * sin (PI + (now - t0) / duration s
                                                  * (2 * PI)))
                            0)))
                      c);
        cbn [base duration radius m tic origin target] in IH;
        destruct IH as (Hd & Hb & Hv & msgs & Hp & Hl & Hc);
        try assumption; try reflexivity
    end.
    cbv zeta. rewrite Hd, Hb, Hv. cbn [done best_grasp tsdf intrinsic
                                        publish set_tsdf].
    repeat split.
    + cbn [List.length]. apply repeat_app_cons.
    + exists (msgs ++ [set_translation x
                         (vadd c (mkVec3
                            (radius s * cos (PI + (now - t0) / duration s
                                                  * (2 * PI)))
                            (radius s * sin (PI + (now - t0) / duration s
                                                  * (2 * PI)))
                            0))]).
      repeat split.
      * rewrite Hp. cbn [target_pose_pub publish set_tsdf].
        rewrite <- app_assoc. reflexivity.
      * rewrite length_app, Hl. cbn [List.length].
        rewrite PeanoNat.Nat.add_1_r. reflexivity.
      * apply Forall_app. split; [exact Hc |].
        constructor; [| constructor]. split; [reflexivity |].
        apply circle_point.
Qed.

(** X18.  The single-view [update] does not look at [done]: every call
    integrates the current sample again, whether or not planning succeeds,
    so [n] updates leave [n] further copies of the sample in the volume,
    and the sample itself stays in place. *)
Theorem SingleView_integrates_on_every_update :
  forall (n : nat) (p : PolicyT) (img : Image) (ext : Transform),
    last_depth_img p = Some img ->
    last_extrinsic p = Some ext ->
    let p' := SV_run compute_grasps (repeat (@SV_update Image) n) p in
    tsdf p' = repeat (img, intrinsic p, ext) n ++ tsdf p
    /\ last_depth_img p' = Some img
    /\ last_extrinsic p' = Some ext.
Proof.
  induction n as [| n IH]; intros p img ext Hi He.
  - cbn. repeat split; assumption.
  - cbn [repeat]. rewrite SV_run_cons. cbn [SV_exec].
    rewrite SV_update_cases, Hi, He. cbv zeta.
    destruct (compute_grasps _) as [| g others]; cbn [snd];
      match goal with
      | |- context [SV_run _ _ ?q] =>
          destruct (IH q img ext Hi He) as (Hv & Hi' & He')
      end;
      rewrite Hv, Hi', He'; cbn [tsdf intrinsic set_tsdf set_done
                                  set_best_grasp];
      (repeat split; apply repeat_app_cons).
Qed.

End Counting.

(** ** The further properties at concrete objects *)

Lemma sensor_cb_failed_lookup_pairs_new_image_with_old_extrinsic_witness :
  last_extrinsic Examples.sampled_policy = Some Transform_identity
  /\ tsdf (snd (SingleViewBaseline_update Examples.detect_two
                  (snd (sensor_cb tt (Raise (LibraryError "LookupException"))
                          Examples.sampled_policy))))
     = [(tt, tt, Transform_identity)].
Proof.
  split; [reflexivity |].
  destruct (sensor_cb_failed_lookup_pairs_new_image_with_old_extrinsic
              Examples.detect_two Examples.sampled_policy tt
              (LibraryError "LookupException") Transform_identity eq_refl)
    as (_ & _ & _ & H).
  exact H.
Defined.

Lemma SingleView_update_plans_from_updated_volume_witness :
  (last_depth_img Examples.sampled_policy = Some tt
   /\ last_extrinsic Examples.sampled_policy = Some Transform_identity
   /\ Examples.detect_two [(tt, tt, Transform_identity)]
      = [Examples.grasp_back; Examples.grasp_front])
  /\ done (snd (SingleViewBaseline_update Examples.detect_two
                  Examples.sampled_policy)) = Some true.
Proof.
  split; [repeat split |].
  destruct (SingleView_update_plans_from_updated_volume
              Examples.detect_two Examples.sampled_policy tt
              Transform_identity Examples.grasp_back [Examples.grasp_front]
              eq_refl eq_refl eq_refl)
    as (_ & _ & _ & H & _).
  exact H.
Defined.

Lemma update_without_candidates_still_integrates_witness :
  (last_depth_img Examples.sampled_policy = Some tt
   /\ last_extrinsic Examples.sampled_policy = Some Transform_identity
   /\ Examples.detect_none [(tt, tt, Transform_identity)] = [])
  /\ SingleViewBaseline_update Examples.detect_none Examples.sampled_policy
     = (Raise IndexError,
        set_tsdf [(tt, tt, Transform_identity)] Examples.sampled_policy).
Proof.
  split; [repeat split |].
  destruct (update_without_candidates_still_integrates Examples.detect_none)
    as (H & _).
  apply (H Examples.sampled_policy tt Transform_identity
           eq_refl eq_refl eq_refl).
Defined.

Lemma update_without_extrinsic_raises_AttributeError_witness :
  last_extrinsic Examples.fresh_policy = None
  /\ fst (SingleViewBaseline_update Examples.detect_two
            (snd (sensor_cb tt (Raise (LibraryError "LookupException"))
                    Examples.fresh_policy)))
     = Raise (AttributeError "last_extrinsic").
Proof.
  split; [reflexivity |].
  destruct (update_without_extrinsic_raises_AttributeError
              Examples.detect_two) as (_ & _ & H).
  rewrite (H Examples.fresh_policy tt (LibraryError "LookupException")
             eq_refl).
  reflexivity.
Defined.

Lemma start_failed_lookup_only_restarts_clock_witness :
  (origin (FixedTrajectoryBaseline_init Examples.sampled_policy) = None
   /\ 0 < duration (FixedTrajectoryBaseline_init Examples.sampled_policy)
   /\ 0 <= 1 - 0
      <= duration (FixedTrajectoryBaseline_init Examples.sampled_policy))
  /\ fst (FixedTrajectoryBaseline_update Examples.detect_two 1
            (snd (FixedTrajectoryBaseline_start 0
                    (Raise (LibraryError "LookupException"))
                    (FixedTrajectoryBaseline_init Examples.sampled_policy))))
     = Raise (AttributeError "origin").
Proof.
  assert (HD : 0 < duration (FixedTrajectoryBaseline_init
                               Examples.sampled_policy))
    by (change (0 < 4.0); lra).
  assert (Hel : 0 <= 1 - 0
                <= duration (FixedTrajectoryBaseline_init
                               Examples.sampled_policy))
    by (change (0 <= 1 - 0 <= 4.0); lra).
  split; [repeat split; solve [assumption | apply Hel] |].
  destruct (start_failed_lookup_only_restarts_clock Examples.detect_two)
    as (_ & H).
  rewrite (H (FixedTrajectoryBaseline_init Examples.sampled_policy) 0 1
             (LibraryError "LookupException") tt Transform_identity
             eq_refl eq_refl eq_refl eq_refl HD Hel).
  reflexivity.
Defined.

Lemma update_before_tic_raises_ValueError_witness :
  (tic Examples.started_scan = Some 0
   /\ 0 <= duration Examples.started_scan
   /\ -1 - 0 < 0)
  /\ fst (FixedTrajectoryBaseline_update Examples.detect_two (-1)
            Examples.started_scan)
     = Raise (LibraryError "ValueError").
Proof.
  assert (HD : 0 <= duration Examples.started_scan)
    by (change (0 <= 4.0); lra).
  assert (Hel : -1 - 0 < 0) by lra.
  split; [repeat split; assumption |].
  rewrite (update_before_tic_raises_ValueError
             Examples.detect_two Examples.started_scan (-1) 0 tt
             Transform_identity eq_refl eq_refl eq_refl eq_refl HD Hel).
  reflexivity.
Defined.

Lemma fresh_policy_cannot_update_witness :
  lookup_base_task Examples.startup = Ok Transform_identity
  /\ exists p : Policy unit unit,
       get_policy Examples.startup "single-view" = Ok (SingleView p)
       /\ SingleViewBaseline_update Examples.detect_two p
          = (Raise (AttributeError "last_depth_img"), p).
Proof.
  split; [reflexivity |].
  destruct (fresh_policy_cannot_update Examples.detect_two Examples.startup)
    as (H & _).
  destruct (H Transform_identity eq_refl)
    as ((p & Hp & _ & _ & _ & Hu) & _).
  exists p. split; assumption.
Defined.

Lemma published_pose_lies_on_scan_circle_witness :
  (tic Examples.started_scan = Some 0
   /\ 0 < duration Examples.started_scan
   /\ 0 <= 1 - 0 <= duration Examples.started_scan)
  /\ exists msg : Transform,
       target_pose_pub
         (base (snd (FixedTrajectoryBaseline_update Examples.detect_two 1
                       Examples.started_scan))) = [msg]
       /\ on_circle (mkVec3 (0.5 + 0.1) 0 0.3) 0.1 (translation msg).
Proof.
  assert (HD : 0 < duration Examples.started_scan)
    by (change (0 < 4.0); lra).
  assert (Hel : 0 <= 1 - 0 <= duration Examples.started_scan)
    by (change (0 <= 1 - 0 <= 4.0); lra).
  split; [repeat split; solve [assumption | apply Hel] |].
  destruct (published_pose_lies_on_scan_circle
              Examples.detect_two Examples.started_scan 1 0 tt
              Transform_identity Examples.x0 (mkVec3 (0.5 + 0.1) 0 0.3)
              eq_refl eq_refl eq_refl eq_refl eq_refl eq_refl HD Hel)
    as (msg & _ & Hp & _ & _ & Hc).
  exists msg. split; [exact Hp | exact Hc].
Defined.

Lemma scan_starts_and_ends_at_start_pose_witness :
  0 < duration (FixedTrajectoryBaseline_init Examples.sampled_policy)
  /\ target_pose_pub
       (base (snd (FixedTrajectoryBaseline_update Examples.detect_two
                     (0 + 0) Examples.started_scan)))
     = [Examples.x0].
Proof.
  assert (HD : 0 < duration (FixedTrajectoryBaseline_init
                               Examples.sampled_policy))
    by (change (0 < 4.0); lra).
  split; [exact HD |].
  destruct (scan_starts_and_ends_at_start_pose
              Examples.detect_two
              (FixedTrajectoryBaseline_init Examples.sampled_policy) 0 tt
              Transform_identity Examples.x0 eq_refl eq_refl eq_refl HD)
    as (H & _).
  exact H.
Defined.

Lemma planned_grasp_bookkeeping_witness :
  planned_when_done Examples.fresh_policy
  /\ planned_when_done
       (SV_run Examples.detect_two
          [SV_start; SV_sensor_cb tt (Ok Transform_identity); SV_update;
           SV_start]
          Examples.fresh_policy).
Proof.
  assert (H : planned_when_done Examples.fresh_policy)
    by (intros K; discriminate K).
  split; [exact H |].
  destruct (planned_grasp_bookkeeping Examples.detect_two) as (B & _).
  destruct (B [SV_start; SV_sensor_cb tt (Ok Transform_identity); SV_update;
               SV_start] Examples.fresh_policy) as (_ & P).
  exact (P H).
Defined.

Lemma updates_keep_scan_frame_witness :
  forallb (fun c => negb (FT_is_start c))
          [FT_update 1; FT_sensor_cb tt (Ok Transform_identity); FT_update 5]
  = true
  /\ tic (FT_run Examples.detect_two
            [FT_update 1; FT_sensor_cb tt (Ok Transform_identity);
             FT_update 5]
            Examples.started_scan)
     = tic Examples.started_scan.
Proof.
  split; [reflexivity |].
  destruct (updates_keep_scan_frame Examples.detect_two
              [FT_update 1; FT_sensor_cb tt (Ok Transform_identity);
               FT_update 5]
              Examples.started_scan eq_refl) as (H & _).
  exact H.
Defined.

Lemma scanning_updates_integrate_and_publish_once_each_witness :
  (0 < duration Examples.started_scan
   /\ Forall (fun now => 0 <= now - 0 <= duration Examples.started_scan)
             [0; 2.0])
  /\ tsdf (base (FT_run Examples.detect_two
                   (map (@FT_update unit) [0; 2.0]) Examples.started_scan))
     = repeat (tt, tt, Transform_identity) 2
       ++ tsdf (base Examples.started_scan).
Proof.
  assert (HD : 0 < duration Examples.started_scan)
    by (change (0 < 4.0); lra).
  assert (Hall : Forall (fun now => 0 <= now - 0
                                    <= duration Examples.started_scan)
                        [0; 2.0]).
  { repeat constructor;
      change (duration Examples.started_scan) with 4.0; lra. }
  split; [split; assumption |].
  destruct (scanning_updates_integrate_and_publish_once_each
              Examples.detect_two [0; 2.0] Examples.started_scan 0 tt
              Transform_identity Examples.x0 (mkVec3 (0.5 + 0.1) 0 0.3)
              eq_refl eq_refl eq_refl eq_refl eq_refl eq_refl HD Hall)
    as (_ & _ & H & _).
  exact H.
Defined.

Lemma SingleView_integrates_on_every_update_witness :
  (last_depth_img Examples.sampled_policy = Some tt
   /\ last_extrinsic Examples.sampled_policy = Some Transform_identity)
  /\ tsdf (SV_run Examples.detect_two (repeat (@SV_update unit) 2)
             Examples.sampled_policy)
     = repeat (tt, tt, Transform_identity) 2.
Proof.
  split; [split; reflexivity |].
  destruct (SingleView_integrates_on_every_update
              Examples.detect_two 2 Examples.sampled_policy tt
              Transform_identity eq_refl eq_refl) as (H & _).
  exact H.
Defined.
